(** * Paginated product listing: the [GetProducts] handler

    A shallow embedding of [backend/internal/handlers/products.go] and a
    verification of its pagination contract: how the raw [page] and
    [limit] query parameters are normalised, how the count and page-fetch
    queries are issued, how the envelope is composed, and what the handler
    does to the response writer and to the trace span on each path.

    Conventions of the model
    - Go's [int] is the 64-bit two's complement integer; it is a [Z] with
      the wrap-around written out ([wrap_int]).
    - [float64] is IEEE 754 binary64, taken from the Standard Library's
      executable specification [SpecFloat] at precision 53.
    - The handler is a procedure with effects on a response writer, a
      span, the logger and the database handle.  Effects are threaded
      through a state monad over a [World] recording, in order, every
      operation the handler performs on each of them. *)

From Stdlib Require Import ZArith Lia DecimalString DecimalPos Ascii String Bool.
From Stdlib Require Import Floats.SpecFloat.
From stdpp Require Import gmap strings list sorting.

Local Open Scope Z_scope.

(* ================================================================== *)
(** * Machine integers *)
(* ================================================================== *)

Module GoInt.

Definition intSize : Z := 64.
Definition minInt : Z := - 2 ^ (intSize - 1).
Definition maxInt : Z := 2 ^ (intSize - 1) - 1.

(** The value of a mathematical integer once stored in an [int]. *)
Definition wrap_int (z : Z) : Z :=
  (z + 2 ^ (intSize - 1)) mod 2 ^ intSize - 2 ^ (intSize - 1).

Definition in_range (z : Z) : bool := (minInt <=? z) && (z <=? maxInt).

Definition int_sub (x y : Z) : Z := wrap_int (x - y).
Definition int_mul (x y : Z) : Z := wrap_int (x * y).

End GoInt.
Export GoInt.

(* ================================================================== *)
(** * [strconv.Atoi] *)
(* ================================================================== *)

Module Strconv.

Definition is_digit (c : ascii) : bool :=
  let n := Z.of_N (N_of_ascii c) in (48 <=? n) && (n <=? 57).

Definition digit_value (c : ascii) : Z := Z.of_N (N_of_ascii c) - 48.

(** The digit loop: base 10, no underscores, no letters. *)
Fixpoint parse_digits (s : string) (acc : Z) : option Z :=
  match s with
  | EmptyString => Some acc
  | String c rest =>
      if is_digit c then parse_digits rest (acc * 10 + digit_value c)
      else None
  end.

(** [Atoi s] is [Some n] when [strconv.Atoi] returns [(n, nil)] and
    [None] when it returns a non-nil error (a syntax error for the
    empty string, a lone sign or a character that is not a decimal
    digit; a range error when the value does not fit an [int]).  The
    value returned next to an error is never read by the handler. *)
Definition Atoi (s : string) : option Z :=
  match s with
  | EmptyString => None
  | String c rest =>
      let neg := Ascii.eqb c "-" in
      let digits := if neg || Ascii.eqb c "+" then rest else s in
      match digits with
      | EmptyString => None
      | String _ _ =>
          match parse_digits digits 0 with
          | None => None
          | Some un =>
              let n := if neg then - un else un in
              if in_range n then Some n else None
          end
      end
  end.

(** [strconv.Itoa], used by the JSON encoder for integer fields. *)
Definition Itoa (z : Z) : string := NilZero.string_of_int (Z.to_int z).

(** The value of a decimal numeral read from the left, as the digit
    loop accumulates it. *)
Fixpoint horner (d : Decimal.uint) (acc : Z) : Z :=
  match d with
  | Decimal.Nil => acc
  | Decimal.D0 l => horner l (acc * 10 + 0)
  | Decimal.D1 l => horner l (acc * 10 + 1)
  | Decimal.D2 l => horner l (acc * 10 + 2)
  | Decimal.D3 l => horner l (acc * 10 + 3)
  | Decimal.D4 l => horner l (acc * 10 + 4)
  | Decimal.D5 l => horner l (acc * 10 + 5)
  | Decimal.D6 l => horner l (acc * 10 + 6)
  | Decimal.D7 l => horner l (acc * 10 + 7)
  | Decimal.D8 l => horner l (acc * 10 + 8)
  | Decimal.D9 l => horner l (acc * 10 + 9)
  end.

End Strconv.
Export Strconv.

(* ================================================================== *)
(** * [float64] and [math.Ceil] *)
(* ================================================================== *)

Module Float64.

Definition prec : Z := 53.
Definition emax : Z := 1024.

Definition float64 : Type := spec_float.

(** The conversion [float64(n)] of an [int]: round to nearest, ties to
    even. *)
Definition float64_of_int (n : Z) : float64 :=
  binary_normalize prec emax n 0 false.

(** The operator [/] on [float64]. *)
Definition float64_div (x y : float64) : float64 := SFdiv prec emax x y.

(** The least integer not below [sm * 2 ^ e]. *)
Definition Zceil_scaled (sm e : Z) : Z :=
  if 0 <=? e then sm * 2 ^ e else - ((- sm) / 2 ^ (- e)).

(** [sm * 2 ^ e] truncated towards zero. *)
Definition Ztrunc_scaled (sm e : Z) : Z :=
  if 0 <=? e then sm * 2 ^ e else Z.quot sm (2 ^ (- e)).

(** [math.Ceil]: zeros, infinities and NaN are returned as they are;
    the ceiling of a finite value is an integer that binary64 holds
    exactly, with the sign of the argument when it is zero. *)
Definition Ceil (x : float64) : float64 :=
  match x with
  | S754_finite s m e =>
      binary_normalize prec emax (Zceil_scaled (cond_Zopp s (Zpos m)) e) 0 s
  | _ => x
  end.

(** The conversion [int(x)]: truncation towards zero.  Go leaves the
    result open when the value does not fit; the model returns what
    the amd64 instruction does there, the least [int]. *)
Definition int_of_float64 (x : float64) : Z :=
  match x with
  | S754_zero _ => 0
  | S754_finite s m e =>
      let v := Ztrunc_scaled (cond_Zopp s (Zpos m)) e in
      if in_range v then v else minInt
  | _ => minInt
  end.

(** Helpers of the rounding analysis: whether a location is inexact,
    and the mantissa, at the exponent of the quotient, that
    [binary_round_aux] produces from a quotient of 53 or 54 bits. *)
Definition inexact (l : location) : bool :=
  match l with loc_Exact => false | loc_Inexact _ => true end.

Definition rounded (q : Z) (l : location) : Z :=
  if q <? 2 ^ 53 then round_nearest_even q l
  else 2 * round_nearest_even (q / 2)
             (loc_of_shr_record (shr_1 (shr_record_of_loc q l))).

End Float64.
Export Float64.

(** The mathematical ceiling of [n / d] for a positive [d]. *)
Definition ceil_div (n d : Z) : Z := (n + d - 1) / d.

(* ================================================================== *)
(** * Data model *)
(* ================================================================== *)

(** A Go slice value: [nil], or a slice with its elements.  The two
    have length zero alike but are encoded differently by
    [encoding/json]. *)
Inductive slice (A : Type) : Type :=
| nil_slice
| make_slice (elems : list A).
Arguments nil_slice {A}.
Arguments make_slice {A} elems.

Definition elements {A} (s : slice A) : list A :=
  match s with nil_slice => [] | make_slice l => l end.

Definition len {A} (s : slice A) : Z := Z.of_nat (length (elements s)).

(** [append(s, x1, ..., xn)]: appending nothing returns [s] itself. *)
Definition append {A} (s : slice A) (xs : list A) : slice A :=
  match xs with
  | [] => s
  | _ :: _ => make_slice (elements s ++ xs)
  end.

(** Modelled from the spec: [models.Product] lives outside the handler's
    file; its fields are the columns the handler selects, an integer
    identifier, five text fields, a numeric price and a creation time. *)
Record Product : Type := {
  id : Z;
  name : string;
  category : string;
  brand : string;
  model : string;
  description : string;
  price : Z;
  created_at : string
}.

(** Modelled from the spec: [models.PaginatedResponse], the envelope,
    with the fields the handler fills in. *)
Record PaginatedResponse : Type := {
  Products : slice Product;
  Page : Z;
  Limit : Z;
  TotalPages : Z;
  Count : Z
}.

(* ================================================================== *)
(** * The product store behind [sqlx.DB] *)
(* ================================================================== *)

Inductive DbResult (A : Type) : Type :=
| Ok (a : A)
| Err (msg : string).
Arguments Ok {A} a.
Arguments Err {A} msg.

(** The two statements the handler runs, as an interface:
    [SELECT COUNT( * ) FROM products] and
    [SELECT id, ... FROM products ORDER BY id LIMIT ? OFFSET ?] with the
    two bound arguments. *)
Record Store : Type := {
  count_products : DbResult Z;
  select_products : Z -> Z -> DbResult (list Product)
}.

Record ProductHandler : Type := { db : Store }.

Definition NewProductHandler (d : Store) : ProductHandler := {| db := d |}.

(** [ORDER BY id]. *)
Definition by_id (p q : Product) : Prop := id p <= id q.

#[global] Instance by_id_dec (p q : Product) : Decision (by_id p q) :=
  Z_le_dec (id p) (id q).

Definition order_by_id (rows : list Product) : list Product :=
  merge_sort by_id rows.

(** [LIMIT limit OFFSET offset]: skip [offset] rows, keep at most
    [limit]. *)
Definition limit_offset (limit offset : Z) (rows : list Product) : list Product :=
  take (Z.to_nat limit) (drop (Z.to_nat offset) rows).

(** A static snapshot of the [products] table: both statements are
    evaluated on the same rows.  The server refuses a negative bound
    argument of [LIMIT] or [OFFSET], as MySQL does when it executes a
    prepared statement. *)

Definition snapshot_store (rows : list Product) : Store := {|
  count_products := Ok (Z.of_nat (length rows));
  select_products := fun limit offset =>
    if (limit <? 0) || (offset <? 0)
    then Err "Incorrect arguments to mysqld_stmt_execute"
    else Ok (limit_offset limit offset (order_by_id rows))
|}.

(* ================================================================== *)
(** * The request and its environment *)
(* ================================================================== *)

(** [url.Values], a map from a key to the values given for it. *)
Record Request : Type := {
  RemoteAddr : string;
  Query : gmap string (list string)
}.

(** [url.Values.Get]: the first value of the key, or the empty string
    when the key is absent. *)
Definition Get (q : gmap string (list string)) (key : string) : string :=
  match q !! key with
  | Some (v :: _) => v
  | _ => EmptyString
  end.

(** What the surroundings decide during one call: the two readings of
    the clock and whether writing the body to the connection fails. *)
Record Env : Type := {
  clock_start : Z;
  clock_end : Z;
  write_error : option string
}.

(* ================================================================== *)
(** * The world the handler acts on *)
(* ================================================================== *)

Inductive Chunk : Type :=
| Text (s : string)
| Json (v : PaginatedResponse).

(** Operations on the [http.ResponseWriter], in the order performed. *)
Inductive RwOp : Type :=
| OpHeaderSet (key value : string)
| OpHeaderDel (key : string)
| OpWriteHeader (code : Z)
| OpWrite (c : Chunk).

Inductive AttrValue : Type :=
| AttrString (s : string)
| AttrInt (n : Z).

Record Span : Type := {
  span_name : string;
  span_attrs : list (string * AttrValue);
  span_ended : nat
}.

Inductive DbCall : Type :=
| DbCount
| DbSelect (limit offset : Z).

Inductive LogLine : Type :=
| LogRequest (remote : string)
| LogParams (pageStr limitStr : string)
| LogProcessed (page limit offset : Z)
| LogCountQuery
| LogCountError (e : string)
| LogTotalCount (n : Z)
| LogSelectQuery (limit offset : Z)
| LogSelectError (e : string)
| LogRetrieved (n : Z)
| LogTotalPages (n : Z)
| LogEncodeError (e : string)
| LogCompleted (duration n : Z).

Record World : Type := {
  w_resp : list RwOp;
  w_span : option Span;
  w_db : list DbCall;
  w_log : list LogLine
}.

Definition init_world : World :=
  {| w_resp := []; w_span := None; w_db := []; w_log := [] |}.

(** ** The state monad of handler actions *)

Definition Action (A : Type) : Type := World -> A * World.

Definition ret {A} (a : A) : Action A := fun w => (a, w).

Definition bind {A B} (c : Action A) (k : A -> Action B) : Action B :=
  fun w => let '(a, w') := c w in k a w'.

Notation "x <- c ;; k" := (bind c (fun x => k))
  (at level 20, c at level 99, k at level 200, only parsing).
Notation "c ;; k" := (bind c (fun _ => k))
  (at level 100, k at level 200, right associativity, only parsing).

(** [defer d] followed by the rest of the function body: [d] runs when
    the body is left, on whichever path. *)
Definition defer {A} (d : Action unit) (body : Action A) : Action A :=
  fun w => let '(a, w') := body w in (a, snd (d w')).

(** ** Primitive actions *)

Definition log_Printf (l : LogLine) : Action unit := fun w =>
  (tt, {| w_resp := w_resp w; w_span := w_span w; w_db := w_db w;
          w_log := w_log w ++ [l] |}).

Definition rw_do (ops : list RwOp) : Action unit := fun w =>
  (tt, {| w_resp := w_resp w ++ ops; w_span := w_span w; w_db := w_db w;
          w_log := w_log w |}).

Definition set_span (s : option Span) : Action unit := fun w =>
  (tt, {| w_resp := w_resp w; w_span := s; w_db := w_db w;
          w_log := w_log w |}).

Definition tracer_Start (nm : string) : Action unit :=
  set_span (Some {| span_name := nm; span_attrs := []; span_ended := 0 |}).

(** Attributes set on a span that has ended are dropped. *)
Definition span_SetAttributes (kvs : list (string * AttrValue)) : Action unit :=
  fun w =>
    match w_span w with
    | Some s =>
        if Nat.eqb (span_ended s) 0
        then set_span (Some {| span_name := span_name s;
                               span_attrs := span_attrs s ++ kvs;
                               span_ended := span_ended s |}) w
        else (tt, w)
    | None => (tt, w)
    end.

Definition span_End : Action unit := fun w =>
  match w_span w with
  | Some s => set_span (Some {| span_name := span_name s;
                                span_attrs := span_attrs s;
                                span_ended := S (span_ended s) |}) w
  | None => (tt, w)
  end.

Definition db_call (c : DbCall) : Action unit := fun w =>
  (tt, {| w_resp := w_resp w; w_span := w_span w; w_db := w_db w ++ [c];
          w_log := w_log w |}).

(** [h.db.Get(&totalCount, "SELECT COUNT( * ) FROM products")]. *)
Definition db_Get (h : ProductHandler) : Action (DbResult Z) :=
  db_call DbCount ;; ret (count_products (db h)).

(** [h.db.Select(&products, query, limit, offset)]: the rows are
    appended to the destination slice. *)
Definition db_Select (h : ProductHandler) (dest : slice Product)
    (limit offset : Z) : Action (DbResult (slice Product)) :=
  db_call (DbSelect limit offset) ;;
  ret (match select_products (db h) limit offset with
       | Ok rows => Ok (append dest rows)
       | Err e => Err e
       end).

Definition newline : string := String "010"%char EmptyString.

(** [http.Error]: the content type is replaced by plain text, the
    status line is written, then the message and a newline. *)
Definition http_Error_ops (msg : string) (code : Z) : list RwOp :=
  [ OpHeaderDel "Content-Length";
    OpHeaderSet "Content-Type" "text/plain; charset=utf-8";
    OpHeaderSet "X-Content-Type-Options" "nosniff";
    OpWriteHeader code;
    OpWrite (Text (msg +:+ newline)) ].

Definition http_Error (msg : string) (code : Z) : Action unit :=
  rw_do (http_Error_ops msg code).

(** [json.NewEncoder(w).Encode(v)]: the envelope has only plain fields
    and is always marshalled; the error returned is that of the write. *)
Definition json_Encode (env : Env) (v : PaginatedResponse) : Action (option string) :=
  rw_do [ OpWrite (Json v) ] ;; ret (write_error env).

Definition StatusInternalServerError : Z := 500.
Definition StatusOK : Z := 200.

(* ================================================================== *)
(** * The handler *)
(* ================================================================== *)

(** The page and limit of a request, from the raw strings: the value
    parsed, or the default when parsing fails or the value is out of
    bounds. *)
Definition normalize_page (pageStr : string) : Z :=
  match Atoi pageStr with
  | Some page => if page <? 1 then 1 else page
  | None => 1
  end.

Definition normalize_limit (limitStr : string) : Z :=
  match Atoi limitStr with
  | Some limit => if (limit <? 1) || (limit >? 100) then 10 else limit
  | None => 10
  end.

Definition normalize_params (pageStr limitStr : string) : Z * Z :=
  (normalize_page pageStr, normalize_limit limitStr).

Definition offset_of (page limit : Z) : Z := int_mul (int_sub page 1) limit.

(** [int(math.Ceil(float64(totalCount) / float64(limit)))]. *)
Definition totalPages_of (totalCount limit : Z) : Z :=
  int_of_float64
    (Ceil (float64_div (float64_of_int totalCount) (float64_of_int limit))).

Section Handler.

(** The standard headers of the service, set on every response. *)
Variable standard_headers : list (string * string).

(** Modelled from the spec: the headers [setJSONHeaders] sets, the JSON
    content type and the standard headers. *)
Definition json_headers : list (string * string) :=
  ("Content-Type", "application/json") :: standard_headers.

Definition setJSONHeaders_ops : list RwOp :=
  map (fun kv => OpHeaderSet (fst kv) (snd kv)) json_headers.

(** Modelled from the spec: [setJSONHeaders] is defined in another file
    of the package.  It sets the headers above and writes nothing. *)
Definition setJSONHeaders : Action unit := rw_do setJSONHeaders_ops.

Definition GetProducts (h : ProductHandler) (r : Request) (env : Env)
  : Action unit :=
  let start := clock_start env in
  log_Printf (LogRequest (RemoteAddr r)) ;;
  tracer_Start "get_products" ;;
  defer span_End (
    setJSONHeaders ;;
    let pageStr := Get (Query r) "page" in
    let limitStr := Get (Query r) "limit" in
    log_Printf (LogParams pageStr limitStr) ;;
    let page := normalize_page pageStr in
    let limit := normalize_limit limitStr in
    let offset := offset_of page limit in
    log_Printf (LogProcessed page limit offset) ;;
    log_Printf LogCountQuery ;;
    res <- db_Get h ;;
    match res with
    | Err e =>
        log_Printf (LogCountError e) ;;
        span_SetAttributes [("error", AttrString e)] ;;
        http_Error "Internal server error" StatusInternalServerError
    | Ok totalCount =>
        log_Printf (LogTotalCount totalCount) ;;
        log_Printf (LogSelectQuery limit offset) ;;
        res <- db_Select h (make_slice []) limit offset ;;
        match res with
        | Err e =>
            log_Printf (LogSelectError e) ;;
            span_SetAttributes [("error", AttrString e)] ;;
            http_Error "Internal server error" StatusInternalServerError
        | Ok products =>
            log_Printf (LogRetrieved (len products)) ;;
            let totalPages := totalPages_of totalCount limit in
            log_Printf (LogTotalPages totalPages) ;;
            span_SetAttributes
              [ ("page", AttrInt page);
                ("limit", AttrInt limit);
                ("total_count", AttrInt totalCount);
                ("total_pages", AttrInt totalPages);
                ("returned_count", AttrInt (len products)) ] ;;
            let response :=
              {| Products := products;
                 Page := page;
                 Limit := limit;
                 TotalPages := totalPages;
                 Count := totalCount |} in
            err <- json_Encode env response ;;
            match err with
            | Some e => log_Printf (LogEncodeError e)
            | None =>
                let duration := clock_end env - start in
                log_Printf (LogCompleted duration (len products))
            end
        end
    end).

(** One call of the handler on a fresh response writer. *)
Definition serve (h : ProductHandler) (r : Request) (env : Env) : World :=
  snd (GetProducts h r env init_world).

End Handler.

(* ================================================================== *)
(** * What the client receives *)
(* ================================================================== *)

(** The status and the header map are fixed by the first [WriteHeader],
    or by the first [Write], which implies status 200. *)
Fixpoint committed (hdr : gmap string string) (ops : list RwOp)
  : option (Z * gmap string string) :=
  match ops with
  | [] => None
  | OpHeaderSet k v :: rest => committed (<[k := v]> hdr) rest
  | OpHeaderDel k :: rest => committed (delete k hdr) rest
  | OpWriteHeader code :: _ => Some (code, hdr)
  | OpWrite _ :: _ => Some (StatusOK, hdr)
  end.

Definition sent_status (ops : list RwOp) : option Z :=
  fst <$> committed ∅ ops.

Definition sent_headers (ops : list RwOp) : option (gmap string string) :=
  snd <$> committed ∅ ops.

(** The header map once all the operations in [ops] are done. *)
Definition headers_after (ops : list RwOp) : gmap string string :=
  foldl (fun hdr op =>
           match op with
           | OpHeaderSet k v => <[k := v]> hdr
           | OpHeaderDel k => delete k hdr
           | _ => hdr
           end) ∅ ops.

Definition is_write (op : RwOp) : bool :=
  match op with OpWrite _ | OpWriteHeader _ => true | _ => false end.

Definition body (ops : list RwOp) : list Chunk :=
  omap (fun op => match op with OpWrite c => Some c | _ => None end) ops.

Definition envelope (ops : list RwOp) : option PaginatedResponse :=
  head (omap (fun c => match c with Json v => Some v | Text _ => None end)
             (body ops)).

(** ** The bytes of the body *)

Section Encoding.

(** The encoding of one product is a parameter: it depends on the
    field tags of [models.Product]. *)
Variable encode_product : Product -> string.

Definition quote : string := String "034"%char EmptyString.

Definition json_key (k : string) : string := quote +:+ k +:+ quote +:+ ":".

Fixpoint join_comma (l : list string) : string :=
  match l with
  | [] => EmptyString
  | [x] => x
  | x :: rest => x +:+ "," +:+ join_comma rest
  end.

(** A nil slice is encoded as [null], any other as an array. *)
Definition json_products (s : slice Product) : string :=
  match s with
  | nil_slice => "null"
  | make_slice l => "[" +:+ join_comma (map encode_product l) +:+ "]"
  end.

(** Modelled from the spec: the field names of the envelope. *)
Definition json_response (v : PaginatedResponse) : string :=
  "{" +:+ json_key "products" +:+ json_products (Products v) +:+ ","
      +:+ json_key "page" +:+ Itoa (Page v) +:+ ","
      +:+ json_key "limit" +:+ Itoa (Limit v) +:+ ","
      +:+ json_key "total_pages" +:+ Itoa (TotalPages v) +:+ ","
      +:+ json_key "count" +:+ Itoa (Count v) +:+ "}".

Definition render_chunk (c : Chunk) : string :=
  match c with
  | Text s => s
  | Json v => json_response v +:+ newline
  end.

Definition render_body (ops : list RwOp) : string :=
  String.concat EmptyString (map render_chunk (body ops)).

End Encoding.

(** ** Validity of the raw parameters *)

Definition invalid_page (pageStr : string) : Prop :=
  match Atoi pageStr with Some page => page < 1 | None => True end.

Definition invalid_limit (limitStr : string) : Prop :=
  match Atoi limitStr with
  | Some limit => limit < 1 \/ 100 < limit
  | None => True
  end.

(** ** The parameters of a request, as the handler computes them *)

Definition page_of (r : Request) : Z := normalize_page (Get (Query r) "page").
Definition limit_of (r : Request) : Z := normalize_limit (Get (Query r) "limit").
Definition offset_in (r : Request) : Z := offset_of (page_of r) (limit_of r).

(** The log lines common to every path, and the span at the end of a
    call. *)
Definition log_prefix (r : Request) : list LogLine :=
  [ LogRequest (RemoteAddr r);
    LogParams (Get (Query r) "page") (Get (Query r) "limit");
    LogProcessed (page_of r) (limit_of r) (offset_in r);
    LogCountQuery ].

Definition ended_span (attrs : list (string * AttrValue)) : Span :=
  {| span_name := "get_products"; span_attrs := attrs; span_ended := 1 |}.

Definition error_response (sh : list (string * string)) : list RwOp :=
  setJSONHeaders_ops sh
    ++ http_Error_ops "Internal server error" StatusInternalServerError.

(** The envelope composed from the count and the rows fetched. *)
Definition response_of (r : Request) (totalCount : Z) (rows : list Product)
  : PaginatedResponse :=
  {| Products := append (make_slice []) rows;
     Page := page_of r;
     Limit := limit_of r;
     TotalPages := totalPages_of totalCount (limit_of r);
     Count := totalCount |}.

Definition success_attrs (r : Request) (totalCount : Z) (rows : list Product)
  : list (string * AttrValue) :=
  [ ("page", AttrInt (page_of r));
    ("limit", AttrInt (limit_of r));
    ("total_count", AttrInt totalCount);
    ("total_pages", AttrInt (totalPages_of totalCount (limit_of r)));
    ("returned_count", AttrInt (len (append (make_slice []) rows))) ].

Definition last_line (env : Env) (rows : list Product) : LogLine :=
  match write_error env with
  | Some e => LogEncodeError e
  | None => LogCompleted (clock_end env - clock_start env)
                         (len (append (make_slice []) rows))
  end.

(** The header map after setting the pairs of [kvs] in order. *)
Definition set_all (hdr : gmap string string) (kvs : list (string * string))
  : gmap string string :=
  foldl (fun m kv => <[fst kv := snd kv]> m) hdr kvs.

(** The header map that [http.Error] leaves. *)
Definition plain_text_headers (hdr : gmap string string) : gmap string string :=
  <["X-Content-Type-Options" := "nosniff"]>
    (<["Content-Type" := "text/plain; charset=utf-8"]>
       (delete "Content-Length" hdr)).

(** Every call takes one of the three paths. *)
Inductive Path (h : ProductHandler) (r : Request) : Prop :=
| CountFailed (e : string)
    (Hcount : count_products (db h) = Err e)
| SelectFailed (n : Z) (e : string)
    (Hcount : count_products (db h) = Ok n)
    (Hselect : select_products (db h) (limit_of r) (offset_in r) = Err e)
| Fetched (n : Z) (rows : list Product)
    (Hcount : count_products (db h) = Ok n)
    (Hselect : select_products (db h) (limit_of r) (offset_in r) = Ok rows).

(* ================================================================== *)
(** * Sample requests and tables *)
(* ================================================================== *)

Definition request (pageStr limitStr : string) : Request :=
  {| RemoteAddr := "192.0.2.1:40000";
     Query := <["page" := [pageStr]]> (<["limit" := [limitStr]]> ∅) |}.

Definition quiet : Env :=
  {| clock_start := 0; clock_end := 1; write_error := None |}.

Definition product (i : Z) : Product :=
  {| id := i; name := "item"; category := "c"; brand := "b"; model := "m";
     description := "d"; price := 100; created_at := "2025-11-01" |}.

Definition table (n : nat) : list Product :=
  map (fun k => product (Z.of_nat k)) (rev (seq 1 n)).

(** A store whose count query fails, one whose page-fetch query fails,
    and one that reports more rows than binary64 counts exactly. *)
Definition count_fails (e : string) : Store :=
  {| count_products := Err e; select_products := fun _ _ => Ok [] |}.

Definition select_fails (n : Z) (e : string) : Store :=
  {| count_products := Ok n; select_products := fun _ _ => Err e |}.

Definition reports (n : Z) : Store :=
  {| count_products := Ok n; select_products := fun _ _ => Ok [] |}.

(** A second request for the same page, from another client, with
    further parameters, at another time and on a broken connection. *)
Definition other_request (pageStr limitStr : string) : Request :=
  {| RemoteAddr := "198.51.100.7:51234";
     Query := <["sort" := ["name"]]>
                (<["page" := [pageStr; "9"]]> (<["limit" := [limitStr]]> ∅)) |}.

Definition broken_pipe : Env :=
  {| clock_start := 50; clock_end := 99; write_error := Some "broken pipe" |}.

(** A request that gives a limit and no page. *)
Definition limit_only (limitStr : string) : Request :=
  {| RemoteAddr := "192.0.2.1:40000"; Query := <["limit" := [limitStr]]> ∅ |}.

(* ================================================================== *)
(** * Walking the pages of a table *)
(* ================================================================== *)

(** The products a client receives for one page of a snapshot: the
    elements of the product list of the envelope, none when the call
    fails. *)
Definition page_products (sh : list (string * string)) (rows : list Product)
    (env : Env) (pageStr limitStr : string) : list Product :=
  match envelope (w_resp (serve sh (NewProductHandler (snapshot_store rows))
                                (request pageStr limitStr) env)) with
  | Some resp => elements (Products resp)
  | None => []
  end.

(** The page numbers [1 .. n]. *)
Definition page_numbers (n : Z) : list Z :=
  map Z.of_nat (seq 1 (Z.to_nat n)).

(** The largest page whose offset fits an [int] for every limit. *)
Definition safe_page : Z := 92233720368547759.

(** The attributes the handler sets on the span of a success, read
    back from the envelope. *)
Definition attrs_of (resp : PaginatedResponse) : list (string * AttrValue) :=
  [ ("page", AttrInt (Page resp));
    ("limit", AttrInt (Limit resp));
    ("total_count", AttrInt (Count resp));
    ("total_pages", AttrInt (TotalPages resp));
    ("returned_count", AttrInt (len (Products resp))) ].

(* ================================================================== *)
(** * Binary64 division of small integers *)
(* ================================================================== *)

(** The quotient of two integers below [2 ^ 53], rounded to binary64 and
    then rounded up to an integer, is the ceiling of the exact quotient.
    The lemmas follow the computation of [SFdiv]: both operands are
    normalised to 53 bits, the mantissas are divided with 53 extra bits,
    and [binary_round_aux] rounds a quotient of 53 or 54 bits. *)

(** ** Bit lengths *)

Lemma digits2_pos_bounds (p : positive) :
  2 ^ (Zpos (digits2_pos p) - 1) <= Zpos p < 2 ^ Zpos (digits2_pos p).
Proof.
  induction p as [p IH | p IH |]; cbn [digits2_pos].
  - rewrite Pos2Z.inj_succ.
    replace (Z.succ (Z.pos (digits2_pos p)) - 1) with (Z.succ (Z.pos (digits2_pos p) - 1)) by lia.
    rewrite !Z.pow_succ_r by lia. lia.
  - rewrite Pos2Z.inj_succ.
    replace (Z.succ (Z.pos (digits2_pos p)) - 1) with (Z.succ (Z.pos (digits2_pos p) - 1)) by lia.
    rewrite !Z.pow_succ_r by lia. lia.
  - cbn. lia.
Qed.

Lemma digits2_pos_unique (p : positive) (d : Z) :
  2 ^ (d - 1) <= Zpos p < 2 ^ d -> Zpos (digits2_pos p) = d.
Proof.
  intros [Hlo Hhi].
  pose proof (digits2_pos_bounds p) as [Blo Bhi].
  assert (Hd : 0 < d).
  { destruct (Z.ltb_spec 0 d) as [|Hle]; [lia|].
    assert (2 ^ d <= 2 ^ 0) by (destruct (Z.eq_dec d 0) as [->|]; [lia|rewrite Z.pow_neg_r; simpl; lia]).
    simpl in *. lia. }
  set (c := Zpos (digits2_pos p)) in *.
  destruct (Z.lt_trichotomy c d) as [Hlt | [Heq | Hgt]]; [|exact Heq|].
  - assert (2 ^ c <= 2 ^ (d - 1)) by (apply Z.pow_le_mono_r; lia). lia.
  - assert (2 ^ d <= 2 ^ (c - 1)) by (apply Z.pow_le_mono_r; lia). lia.
Qed.

Lemma pos_iter_xO (m d : positive) : Zpos (Pos.iter xO m d) = Zpos m * 2 ^ Zpos d.
Proof.
  induction d as [|d IH] using Pos.peano_ind.
  - cbn. lia.
  - rewrite Pos.iter_succ, Pos2Z.inj_succ, Z.pow_succ_r by lia.
    rewrite Pos2Z.inj_xO, IH. lia.
Qed.

Lemma Zdigits2_unique (m d : Z) :
  0 < m -> 2 ^ (d - 1) <= m < 2 ^ d -> Zdigits2 m = d.
Proof.
  intros Hm Hb. destruct m as [|p|p]; try lia.
  cbn [Zdigits2]. now apply digits2_pos_unique.
Qed.

(** ** Rounding a mantissa of 53 or 54 bits *)

(** A mantissa of exactly 53 bits is kept; one of 54 bits loses one. *)
Lemma shr_fexp_keep (m e : Z) (l : location) :
  2 ^ 52 <= m < 2 ^ 53 -> -1074 <= e ->
  shr_fexp prec emax m e l = (shr_record_of_loc m l, e).
Proof.
  intros Hm He. unfold shr_fexp.
  rewrite (Zdigits2_unique m 53) by (simpl in *; lia).
  unfold fexp, emin, prec, emax.
  replace (Z.max (53 + e - 53) (3 - 1024 - 53) - e) with 0 by lia.
  reflexivity.
Qed.

Lemma shr_fexp_once (m e : Z) (l : location) :
  2 ^ 53 <= m < 2 ^ 54 -> -1075 <= e ->
  shr_fexp prec emax m e l = (shr_1 (shr_record_of_loc m l), e + 1).
Proof.
  intros Hm He. unfold shr_fexp.
  rewrite (Zdigits2_unique m 54) by (simpl in *; lia).
  unfold fexp, emin, prec, emax.
  replace (Z.max (54 + e - 53) (3 - 1024 - 53) - e) with 1 by lia.
  reflexivity.
Qed.

Lemma shr_1_m (m : Z) (r s : bool) :
  0 <= m -> shr_m (shr_1 {| shr_m := m; shr_r := r; shr_s := s |}) = m / 2.
Proof.
  intros Hm. destruct m as [|[p|p|]|p]; try lia; cbn [shr_1 shr_m].
  - reflexivity.
  - apply Z.div_unique with (r := 1); lia.
  - apply Z.div_unique with (r := 0); lia.
  - reflexivity.
Qed.

Lemma shr_1_of_loc_m (m : Z) (l : location) :
  0 <= m -> shr_m (shr_1 (shr_record_of_loc m l)) = m / 2.
Proof. intros Hm. destruct l as [|[]]; cbn [shr_record_of_loc]; now apply shr_1_m. Qed.

Lemma shr_m_of_loc (m : Z) (l : location) : shr_m (shr_record_of_loc m l) = m.
Proof. now destruct l as [|[]]. Qed.

Lemma loc_of_shr_record_of_loc (m : Z) (l : location) :
  loc_of_shr_record (shr_record_of_loc m l) = l.
Proof. now destruct l as [|[]]. Qed.

Lemma round_nearest_even_bounds (m : Z) (l : location) :
  m <= round_nearest_even m l <= m + 1.
Proof. destruct l as [|[]]; cbn [round_nearest_even]; try lia. destruct (Z.even m); lia. Qed.

(** The second normalisation of [binary_round_aux] never loses a bit: a
    mantissa that a carry pushed to [2 ^ 53] is halved exactly. *)
Lemma binary_round_tail (m e : Z) :
  2 ^ 52 <= m <= 2 ^ 53 -> -1074 <= e <= 960 ->
  exists m' e',
    (let '(mrs, e2) := shr_fexp prec emax m e loc_Exact in
     match shr_m mrs with
     | Z0 => S754_zero false
     | Zpos p => if e2 <=? emax - prec then S754_finite false p e2
                 else S754_infinity false
     | Zneg _ => S754_nan
     end) = S754_finite false m' e'
    /\ e <= e' <= e + 1 /\ Zpos m' * 2 ^ (e' - e) = m.
Proof.
  intros Hm He.
  destruct (Z.eq_dec m (2 ^ 53)) as [-> | Hne].
  - rewrite shr_fexp_once by (simpl; lia).
    cbn [shr_record_of_loc]. rewrite shr_1_m by (simpl; lia).
    change (2 ^ 53 / 2) with (Zpos (2 ^ 52)%positive).
    destruct (Z.leb_spec (e + 1) (emax - prec)) as [_|Hbad];
      [| unfold emax, prec in Hbad; lia].
    exists (2 ^ 52)%positive, (e + 1). split; [reflexivity|]. split; [lia|].
    replace (e + 1 - e) with 1 by lia. reflexivity.
  - rewrite shr_fexp_keep by lia. cbn [shr_record_of_loc shr_m].
    destruct m as [|p|p]; try (simpl in *; lia).
    destruct (Z.leb_spec e (emax - prec)) as [_|Hbad];
      [| unfold emax, prec in Hbad; lia].
    exists p, e. split; [reflexivity|]. split; [lia|].
    rewrite Z.sub_diag. simpl. lia.
Qed.

Lemma binary_round_aux_value (q e : Z) (l : location) :
  2 ^ 52 <= q < 2 ^ 54 -> -1074 <= e <= 900 ->
  exists m' e',
    binary_round_aux prec emax false q e l = S754_finite false m' e'
    /\ e <= e' <= e + 2 /\ Zpos m' * 2 ^ (e' - e) = rounded q l.
Proof.
  intros Hq He. unfold binary_round_aux, rounded.
  destruct (Z.ltb_spec q (2 ^ 53)) as [Hlt | Hge].
  - rewrite shr_fexp_keep by lia.
    rewrite shr_m_of_loc, loc_of_shr_record_of_loc.
    pose proof (round_nearest_even_bounds q l) as Hr.
    destruct (binary_round_tail (round_nearest_even q l) e) as (m' & e' & Heq & Hb & Hv);
      [lia | lia |].
    exists m', e'. split; [exact Heq|]. split; [lia | exact Hv].
  - rewrite shr_fexp_once by lia.
    rewrite shr_1_of_loc_m by lia.
    set (l' := loc_of_shr_record (shr_1 (shr_record_of_loc q l))).
    pose proof (round_nearest_even_bounds (q / 2) l') as Hr.
    assert (Hq2 : 2 ^ 52 <= q / 2 < 2 ^ 53).
    { split; [apply Z.div_le_lower_bound | apply Z.div_lt_upper_bound]; simpl in *; lia. }
    destruct (binary_round_tail (round_nearest_even (q / 2) l') (e + 1)) as (m' & e' & Heq & Hb & Hv);
      [lia | lia |].
    exists m', e'. split; [exact Heq|]. split; [lia|].
    rewrite <- Hv. replace (e' - e) with (Z.succ (e' - (e + 1))) by lia.
    rewrite Z.pow_succ_r by lia. lia.
Qed.

(** ** Conversion and division of normalised operands *)

Lemma binary_round_aux_exact (m : positive) (e : Z) :
  2 ^ 52 <= Zpos m < 2 ^ 53 -> -1074 <= e <= 971 ->
  binary_round_aux prec emax false (Zpos m) e loc_Exact = S754_finite false m e.
Proof.
  intros Hm He. unfold binary_round_aux.
  rewrite shr_fexp_keep by lia. cbn [shr_record_of_loc shr_m loc_of_shr_record round_nearest_even].
  rewrite shr_fexp_keep by lia. cbn [shr_record_of_loc shr_m].
  destruct (Z.leb_spec e (emax - prec)) as [_|Hbad];
    [reflexivity | unfold emax, prec in Hbad; lia].
Qed.

(** An integer below [2 ^ 53] converts exactly, to a mantissa of 53
    bits. *)
Lemma float64_of_int_normal (n : Z) :
  0 < n < 2 ^ 53 ->
  exists (m : positive) (k : Z),
    float64_of_int n = S754_finite false m (- k)
    /\ 0 <= k <= 52 /\ Zpos m = n * 2 ^ k /\ 2 ^ 52 <= Zpos m < 2 ^ 53
    /\ n < 2 ^ (53 - k).
Proof.
  intros Hn. destruct n as [|p|p]; try lia.
  unfold float64_of_int, binary_normalize, binary_round.
  pose proof (digits2_pos_bounds p) as Hd.
  set (d := Zpos (digits2_pos p)) in *.
  assert (Hd53 : 1 <= d <= 53).
  { split; [subst d; lia|].
    destruct (Z.leb_spec d 53) as [|Hgt]; [assumption|].
    assert (2 ^ 53 <= 2 ^ (d - 1)) by (apply Z.pow_le_mono_r; lia). lia. }
  clearbody d. unfold fexp, emin, prec, emax.
  replace (Z.max (d + 0 - 53) (3 - 1024 - 53)) with (d - 53) by lia.
  unfold shl_align.
  destruct (d - 53 - 0) as [|c|c] eqn:Hc; try lia.
  - assert (Hd' : d = 53) by lia. rewrite Hd' in Hd. change (53 - 1) with 52 in Hd.
    exists p, 0. rewrite binary_round_aux_exact by lia.
    repeat split; lia.
  - assert (Hk : Zpos c = 53 - d) by lia.
    assert (Hm : Zpos (Pos.iter xO p c) = Zpos p * 2 ^ (53 - d)) by (rewrite pos_iter_xO, Hk; reflexivity).
    assert (Hnorm : 2 ^ 52 <= Zpos (Pos.iter xO p c) < 2 ^ 53).
    { rewrite Hm.
      assert (E52 : 2 ^ 52 = 2 ^ (d - 1) * 2 ^ (53 - d))
        by (rewrite <- Z.pow_add_r by lia; f_equal; lia).
      assert (E53 : 2 ^ 53 = 2 ^ d * 2 ^ (53 - d))
        by (rewrite <- Z.pow_add_r by lia; f_equal; lia).
      assert (0 < 2 ^ (53 - d)) by (apply Z.pow_pos_nonneg; lia).
      rewrite E52, E53. split.
      - apply Z.mul_le_mono_nonneg_r; lia.
      - apply Z.mul_lt_mono_pos_r; lia. }
    exists (Pos.iter xO p c), (53 - d).
    rewrite binary_round_aux_exact by (try assumption; lia).
    replace (- (53 - d)) with (d - 53) by lia.
    repeat split; try lia; try apply Hnorm.
    replace (53 - (53 - d)) with d by lia. apply Hd.
Qed.

Lemma new_location_spec (m r : Z) :
  0 < m -> 0 <= r < m ->
  new_location m r = if r =? 0 then loc_Exact else loc_Inexact (2 * r ?= m).
Proof.
  intros Hm Hr. unfold new_location, new_location_even, new_location_odd.
  destruct (Z.even m) eqn:Hev; [reflexivity|].
  destruct (Z.eqb_spec r 0) as [|Hne]; [reflexivity|].
  f_equal.
  assert (Hodd : Z.odd m = true) by (rewrite <- Z.negb_even, Hev; reflexivity).
  apply Z.odd_spec in Hodd. destruct Hodd as [j Hj].
  destruct (Z.compare_spec (2 * r + 1) m), (Z.compare_spec (2 * r) m); try reflexivity; lia.
Qed.

(** The division of two such numbers is one integer division of the
    mantissas followed by one rounding. *)
Lemma float64_div_normal (m1 m2 : positive) (e1 e2 : Z) :
  2 ^ 52 <= Zpos m1 < 2 ^ 53 -> 2 ^ 52 <= Zpos m2 < 2 ^ 53 ->
  -1021 <= e1 - e2 ->
  float64_div (S754_finite false m1 e1) (S754_finite false m2 e2)
  = binary_round_aux prec emax false
      (Zpos m1 * 2 ^ 53 / Zpos m2) (e1 - e2 - 53)
      (new_location (Zpos m2) ((Zpos m1 * 2 ^ 53) mod Zpos m2)).
Proof.
  intros H1 H2 He. unfold float64_div, SFdiv, SFdiv_core_binary.
  rewrite (Zdigits2_unique (Zpos m1) 53), (Zdigits2_unique (Zpos m2) 53) by (simpl in *; lia).
  unfold fexp, emin, prec, emax.
  replace (Z.min (Z.max (53 + e1 - (53 + e2) - 53) (3 - 1024 - 53)) (e1 - e2))
    with (e1 - e2 - 53) by lia.
  replace (e1 - e2 - (e1 - e2 - 53)) with 53 by lia.
  rewrite Z.shiftl_mul_pow2 by lia.
  unfold Z.div, Z.modulo.
  destruct (Z.div_eucl (Zpos m1 * 2 ^ 53) (Zpos m2)) as [q r]. reflexivity.
Qed.

Lemma shr_1_of_loc (q : Z) (l : location) :
  0 <= q ->
  shr_1 (shr_record_of_loc q l)
  = {| shr_m := q / 2; shr_r := Z.odd q; shr_s := inexact l |}.
Proof.
  intros Hq.
  assert (Hm := shr_1_of_loc_m q l Hq).
  destruct q as [|[p|p|]|p]; try lia; destruct l as [|[]]; cbn in *; now rewrite <- Hm.
Qed.

Lemma round_nearest_even_up (m : Z) (l : location) :
  round_nearest_even m l <> m -> inexact l = true.
Proof. destruct l; [cbn; congruence | reflexivity]. Qed.

Lemma Zceil_char (r t n : Z) :
  0 < t -> (n - 1) * t < r <= n * t -> - ((- r) / t) = n.
Proof.
  intros Ht Hr. enough ((- r) / t = - n) by lia.
  symmetry. apply Z.div_unique with (r := n * t - r); lia.
Qed.

(** ** The ceiling survives the rounding *)

(** With [a * T = Q * b + rb] the quotient of the mantissas and [n] the
    ceiling of [a / b], the rounded quotient lies in [((n - 1) * T, n * T]]
    as soon as [b < T]: rounding to nearest never reaches [(n - 1) * T]
    from above nor passes [n * T]. *)
Section RoundedQuotient.
Variables a b T' Q rb n s : Z.
Variable L : location.
Hypothesis Ha : 0 < a.
Hypothesis Hb : 0 < b.
Hypothesis HT' : 0 < T'.
Hypothesis HbT : b < 2 * T'.
Hypothesis Hdiv : a * (2 * T') = Q * b + rb.
Hypothesis Hrb : 0 <= rb < b.
Hypothesis Hn : a + b - 1 = n * b + s.
Hypothesis Hs : 0 <= s < b.
Hypothesis HL : inexact L = negb (rb =? 0).

Lemma rounded_quotient_bounds :
  (n - 1) * (2 * T') < rounded Q L <= n * (2 * T').
Proof using All.
  assert (Hu : Q <= n * (2 * T')) by nia.
  assert (Hus : rb <> 0 -> Q < n * (2 * T')) by (intros; nia).
  assert (Hl : (n - 1) * (2 * T') < Q) by nia.
  assert (HQ0 : 0 <= Q) by nia.
  unfold rounded. destruct (Z.ltb_spec Q (2 ^ 53)) as [_|_].
  - pose proof (round_nearest_even_bounds Q L) as Hr.
    destruct (Z.eq_dec (round_nearest_even Q L) Q) as [E|E]; [lia|].
    apply round_nearest_even_up in E. rewrite HL in E.
    destruct (Z.eqb_spec rb 0) as [|Hne]; [discriminate|].
    specialize (Hus Hne). lia.
  - rewrite shr_1_of_loc by exact HQ0. cbn [loc_of_shr_record].
    set (H := Q / 2).
    assert (HQ : Q = 2 * H + (if Z.odd Q then 1 else 0))
      by (subst H; rewrite <- Z.div2_div; apply Z.div2_odd).
    rewrite HL.
    destruct (Z.odd Q) eqn:Hodd, (Z.eqb_spec rb 0) as [Hz|Hnz];
      cbn [negb round_nearest_even].
    + destruct (Z.even H); nia.
    + nia.
    + nia.
    + specialize (Hus Hnz). nia.
Qed.
End RoundedQuotient.

Lemma Zceil_scaled_shift (M e j N R : Z) :
  0 <= j -> 0 <= N -> e = j - N -> M * 2 ^ j = R ->
  Zceil_scaled M e = - ((- R) / 2 ^ N).
Proof.
  intros Hj HN -> <-. unfold Zceil_scaled.
  destruct (Z.leb_spec 0 (j - N)) as [Hge | Hlt].
  - replace j with ((j - N) + N) at 2 by lia.
    rewrite Z.pow_add_r by lia.
    replace (- (M * (2 ^ (j - N) * 2 ^ N))) with (- (M * 2 ^ (j - N)) * 2 ^ N) by lia.
    rewrite Z.div_mul by (apply Z.pow_nonzero; lia). lia.
  - replace (2 ^ N) with (2 ^ (- (j - N)) * 2 ^ j)
      by (rewrite <- Z.pow_add_r by lia; f_equal; lia).
    replace (- (M * 2 ^ j)) with (- M * 2 ^ j) by lia.
    rewrite Z.div_mul_cancel_r by (apply Z.pow_nonzero; lia). reflexivity.
Qed.

Lemma in_range_true (n : Z) :
  - 2 ^ 63 <= n <= 2 ^ 63 - 1 -> in_range n = true.
Proof.
  intros Hn. unfold in_range, minInt, maxInt, intSize. change (64 - 1) with 63.
  apply andb_true_intro. split; apply Z.leb_le; lia.
Qed.

Lemma int_of_float64_of_int (n : Z) :
  0 <= n < 2 ^ 53 -> int_of_float64 (float64_of_int n) = n.
Proof.
  intros Hn. destruct (Z.eq_dec n 0) as [-> | Hne]; [reflexivity|].
  destruct (float64_of_int_normal n) as (m & k & E & Hk & Hm & _ & _); [lia|].
  rewrite E. unfold int_of_float64. cbn [cond_Zopp].
  assert (Hv : Ztrunc_scaled (Zpos m) (- k) = n).
  { unfold Ztrunc_scaled. rewrite Hm.
    destruct (Z.leb_spec 0 (- k)).
    - replace k with 0 by lia. simpl. lia.
    - replace (- - k) with k by lia. apply Z.quot_mul. apply Z.pow_nonzero; lia. }
  rewrite Hv, in_range_true by lia. reflexivity.
Qed.

(** ** Total pages *)

Lemma totalPages_of_zero (b : Z) : 0 < b < 2 ^ 53 -> totalPages_of 0 b = 0.
Proof.
  intros Hb. destruct (float64_of_int_normal b Hb) as (m & k & E & _).
  unfold totalPages_of. rewrite E. reflexivity.
Qed.

Lemma normal_quotient_bounds (m1 m2 : Z) :
  2 ^ 52 <= m1 < 2 ^ 53 -> 2 ^ 52 <= m2 < 2 ^ 53 ->
  2 ^ 52 <= m1 * 2 ^ 53 / m2 < 2 ^ 54.
Proof.
  intros H1 H2. split.
  - apply Z.div_le_lower_bound; [lia|].
    transitivity (2 ^ 53 * 2 ^ 52); [apply Z.mul_le_mono_nonneg_r; lia|].
    rewrite (Z.mul_comm m1). apply Z.mul_le_mono_nonneg_l; lia.
  - apply Z.div_lt_upper_bound; [lia|].
    apply Z.lt_le_trans with (2 ^ 53 * 2 ^ 53); [apply Z.mul_lt_mono_pos_r; lia|].
    change (2 ^ 53 * 2 ^ 53) with (2 ^ 52 * 2 ^ 54).
    apply Z.mul_le_mono_nonneg_r; lia.
Qed.

Lemma totalPages_of_small (a b : Z) :
  0 < a < 2 ^ 53 -> 0 < b < 2 ^ 53 ->
  totalPages_of a b = (a + b - 1) / b.
Proof.
  intros Ha Hb.
  destruct (float64_of_int_normal a Ha) as (m1 & k1 & E1 & Hk1 & Hm1 & Hn1 & _).
  destruct (float64_of_int_normal b Hb) as (m2 & k2 & E2 & Hk2 & Hm2 & Hn2 & Hb2).
  unfold totalPages_of. rewrite E1, E2, float64_div_normal by (try assumption; lia).
  set (N := 53 + k1 - k2).
  assert (HN : 1 <= N <= 105) by lia.
  (* the quotient and remainder of the mantissas, in terms of a and b *)
  assert (Hnum : Zpos m1 * 2 ^ 53 = a * 2 ^ N * 2 ^ k2).
  { rewrite Hm1, <- !Z.mul_assoc, <- !Z.pow_add_r by lia. do 2 f_equal. lia. }
  assert (Hk2pos : 0 < 2 ^ k2) by (apply Z.pow_pos_nonneg; lia).
  assert (HQ : Zpos m1 * 2 ^ 53 / Zpos m2 = a * 2 ^ N / b)
    by (rewrite Hnum, Hm2; apply Z.div_mul_cancel_r; lia).
  assert (HR : (Zpos m1 * 2 ^ 53) mod Zpos m2 = (a * 2 ^ N) mod b * 2 ^ k2)
    by (rewrite Hnum, Hm2; apply Z.mul_mod_distr_r; lia).
  pose proof (normal_quotient_bounds _ _ Hn1 Hn2) as HQb.
  rewrite HR. rewrite HQ in *.
  set (Q := a * 2 ^ N / b) in *. set (rb := (a * 2 ^ N) mod b) in *.
  assert (Hrb : 0 <= rb < b) by (apply Z.mod_pos_bound; lia).
  set (L := new_location (Zpos m2) (rb * 2 ^ k2)).
  assert (HL : inexact L = negb (rb =? 0)).
  { subst L. rewrite new_location_spec by nia.
    destruct (Z.eqb_spec rb 0) as [-> | Hnz]; [reflexivity|].
    destruct (Z.eqb_spec (rb * 2 ^ k2) 0); [nia | reflexivity]. }
  destruct (binary_round_aux_value Q (- k1 - - k2 - 53) L) as (m' & e' & Heq & He' & Hv);
    [exact HQb | lia |].
  rewrite Heq. cbn [Ceil cond_Zopp].
  (* the rounded quotient has the same ceiling as a / b *)
  assert (HT : 2 ^ N = 2 * 2 ^ (N - 1))
    by (rewrite <- Z.pow_succ_r by lia; f_equal; lia).
  assert (HT' : 0 < 2 ^ (N - 1)) by (apply Z.pow_pos_nonneg; lia).
  assert (HbT : b < 2 * 2 ^ (N - 1)).
  { rewrite <- HT. apply Z.lt_le_trans with (2 ^ (53 - k2)); [exact Hb2|].
    apply Z.pow_le_mono_r; lia. }
  pose proof (rounded_quotient_bounds a b (2 ^ (N - 1)) Q rb
                ((a + b - 1) / b) ((a + b - 1) mod b) L) as Hbnd.
  rewrite <- HT in Hbnd.
  assert (Hceil : Zceil_scaled (Zpos m') e' = (a + b - 1) / b).
  { rewrite (Zceil_scaled_shift (Zpos m') e' (e' - (- k1 - - k2 - 53)) N (rounded Q L))
      by (try exact Hv; lia).
    apply Zceil_char; [lia|]. apply Hbnd; try lia.
    - subst Q rb. rewrite (Z.mul_comm _ b). apply Z.div_mod. lia.
    - rewrite (Z.mul_comm _ b). apply Z.div_mod. lia.
    - apply Z.mod_pos_bound. lia.
    - exact HL. }
  rewrite Hceil. apply int_of_float64_of_int.
  split; [apply Z.div_pos; lia|].
  apply Z.le_lt_trans with a; [|lia].
  apply Z.lt_succ_r. apply Z.div_lt_upper_bound; nia.
Qed.

Lemma totalPages_of_two53 (b : Z) :
  1 <= b <= 100 -> totalPages_of (2 ^ 53) b = (2 ^ 53 + b - 1) / b.
Proof.
  intros Hb.
  assert (Hall : forallb (fun k => totalPages_of (2 ^ 53) (Z.of_nat k) =? (2 ^ 53 + Z.of_nat k - 1) / Z.of_nat k)
                   (seq 1 100) = true) by (vm_compute; reflexivity).
  rewrite forallb_forall in Hall.
  specialize (Hall (Z.to_nat b)). rewrite Z2Nat.id in Hall by lia.
  apply Z.eqb_eq, Hall. apply in_seq. lia.
Qed.

(** Up to a count of [2 ^ 53] the float computation of line 80 is the
    exact ceiling. *)
Theorem totalPages_of_is_ceiling (totalCount limit : Z) :
  0 <= totalCount <= 2 ^ 53 -> 1 <= limit <= 100 ->
  totalPages_of totalCount limit = (totalCount + limit - 1) / limit.
Proof.
  intros Hc Hl.
  destruct (Z.eq_dec totalCount 0) as [-> | Hnz].
  - rewrite totalPages_of_zero by lia. symmetry. apply Z.div_small. lia.
  - destruct (Z.eq_dec totalCount (2 ^ 53)) as [-> | Hne].
    + now apply totalPages_of_two53.
    + apply totalPages_of_small; lia.
Qed.

(* ================================================================== *)
(** * The three paths of the handler *)
(* ================================================================== *)

Section Paths.

Variable sh : list (string * string).
Variables (h : ProductHandler) (r : Request) (env : Env).

Lemma serve_count_error (e : string) :
  count_products (db h) = Err e ->
  serve sh h r env =
    {| w_resp := error_response sh;
       w_span := Some (ended_span [("error", AttrString e)]);
       w_db := [DbCount];
       w_log := log_prefix r ++ [LogCountError e] |}.
Proof.
  intros Hc. unfold serve, GetProducts.
  cbv [defer bind ret db_Get db_call log_Printf tracer_Start set_span
       setJSONHeaders rw_do span_End span_SetAttributes http_Error
       init_world w_resp w_span w_db w_log snd fst].
  rewrite Hc. reflexivity.
Qed.

Lemma serve_select_error (n : Z) (e : string) :
  count_products (db h) = Ok n ->
  select_products (db h) (limit_of r) (offset_in r) = Err e ->
  serve sh h r env =
    {| w_resp := error_response sh;
       w_span := Some (ended_span [("error", AttrString e)]);
       w_db := [DbCount; DbSelect (limit_of r) (offset_in r)];
       w_log := log_prefix r
                  ++ [ LogTotalCount n;
                       LogSelectQuery (limit_of r) (offset_in r);
                       LogSelectError e ] |}.
Proof.
  intros Hc Hs. unfold serve, GetProducts.
  cbv [defer bind ret db_Get db_Select db_call log_Printf tracer_Start
       set_span setJSONHeaders rw_do span_End span_SetAttributes http_Error
       init_world w_resp w_span w_db w_log snd fst].
  rewrite Hc. fold (page_of r) (limit_of r). fold (offset_in r).
  cbv beta iota. rewrite Hs. reflexivity.
Qed.

Lemma serve_ok (n : Z) (rows : list Product) :
  count_products (db h) = Ok n ->
  select_products (db h) (limit_of r) (offset_in r) = Ok rows ->
  serve sh h r env =
    {| w_resp := setJSONHeaders_ops sh ++ [OpWrite (Json (response_of r n rows))];
       w_span := Some (ended_span (success_attrs r n rows));
       w_db := [DbCount; DbSelect (limit_of r) (offset_in r)];
       w_log := log_prefix r
                  ++ [ LogTotalCount n;
                       LogSelectQuery (limit_of r) (offset_in r);
                       LogRetrieved (len (append (make_slice []) rows));
                       LogTotalPages (totalPages_of n (limit_of r));
                       last_line env rows ] |}.
Proof.
  intros Hc Hs. unfold serve, GetProducts, last_line.
  cbv [defer bind ret db_Get db_Select db_call log_Printf tracer_Start
       set_span setJSONHeaders rw_do span_End span_SetAttributes http_Error
       json_Encode init_world w_resp w_span w_db w_log snd fst].
  rewrite Hc. fold (page_of r) (limit_of r). fold (offset_in r).
  cbv beta iota. rewrite Hs.
  destruct (write_error env); reflexivity.
Qed.

End Paths.

(* ================================================================== *)
(** * Reading the response writer *)
(* ================================================================== *)

Section Observations.

Variable sh : list (string * string).

Lemma committed_header_sets (kvs : list (string * string))
    (hdr : gmap string string) (rest : list RwOp) :
  committed hdr (map (fun kv => OpHeaderSet (fst kv) (snd kv)) kvs ++ rest)
  = committed (set_all hdr kvs) rest.
Proof.
  revert hdr. induction kvs as [|[k v] kvs IH]; intros hdr; [reflexivity|].
  cbn [map app committed fst snd]. rewrite IH. reflexivity.
Qed.

Lemma body_header_sets (kvs : list (string * string)) (rest : list RwOp) :
  body (map (fun kv => OpHeaderSet (fst kv) (snd kv)) kvs ++ rest) = body rest.
Proof. induction kvs as [|[k v] kvs IH]; [reflexivity | exact IH]. Qed.

Lemma no_write_in_setJSONHeaders :
  forallb (fun op => negb (is_write op)) (setJSONHeaders_ops sh) = true.
Proof.
  unfold setJSONHeaders_ops. induction (json_headers sh) as [|kv l IH];
    [reflexivity | exact IH].
Qed.

Lemma committed_error_response :
  committed ∅ (error_response sh)
  = Some (StatusInternalServerError,
          plain_text_headers (set_all ∅ (json_headers sh))).
Proof.
  unfold error_response, setJSONHeaders_ops.
  rewrite committed_header_sets. reflexivity.
Qed.

Lemma committed_envelope (v : PaginatedResponse) :
  committed ∅ (setJSONHeaders_ops sh ++ [OpWrite (Json v)])
  = Some (StatusOK, set_all ∅ (json_headers sh)).
Proof.
  unfold setJSONHeaders_ops. rewrite committed_header_sets. reflexivity.
Qed.

Lemma body_error_response :
  body (error_response sh) = [Text ("Internal server error" +:+ newline)].
Proof. unfold error_response, setJSONHeaders_ops. apply body_header_sets. Qed.

Lemma body_envelope (v : PaginatedResponse) :
  body (setJSONHeaders_ops sh ++ [OpWrite (Json v)]) = [Json v].
Proof. unfold setJSONHeaders_ops. apply body_header_sets. Qed.

Lemma envelope_error_response : envelope (error_response sh) = None.
Proof. unfold envelope. rewrite body_error_response. reflexivity. Qed.

Lemma envelope_envelope (v : PaginatedResponse) :
  envelope (setJSONHeaders_ops sh ++ [OpWrite (Json v)]) = Some v.
Proof. unfold envelope. rewrite body_envelope. reflexivity. Qed.

End Observations.

Lemma path_cases (h : ProductHandler) (r : Request) : Path h r.
Proof.
  destruct (count_products (db h)) as [n|e] eqn:Hc;
    [|exact (CountFailed h r e Hc)].
  destruct (select_products (db h) (limit_of r) (offset_in r)) as [rows|e] eqn:Hs.
  - exact (Fetched h r n rows Hc Hs).
  - exact (SelectFailed h r n e Hc Hs).
Qed.

Ltac on_each_path sh h r env :=
  destruct (path_cases h r) as [e Hc | n e Hc Hs | n rows Hc Hs];
  [ rewrite (serve_count_error sh h r env e Hc)
  | rewrite (serve_select_error sh h r env n e Hc Hs)
  | rewrite (serve_ok sh h r env n rows Hc Hs) ].

(* ================================================================== *)
(** * The contract *)
(* ================================================================== *)

(** ** Parameter normaliser *)

Lemma Atoi_in_range (s : string) (n : Z) :
  Atoi s = Some n -> minInt <= n <= maxInt.
Proof.
  unfold Atoi. destruct s as [|c rest]; [discriminate|].
  destruct (if (Ascii.eqb c "-" || Ascii.eqb c "+")%bool then rest else String c rest);
    [discriminate|].
  destruct (parse_digits _ 0) as [un|]; [|discriminate].
  destruct (in_range _) eqn:Hr; [|discriminate].
  intros [= <-]. unfold in_range in Hr.
  apply andb_prop in Hr as [H1 H2]. apply Z.leb_le in H1, H2. lia.
Qed.

Lemma normalize_page_range (s : string) : 1 <= normalize_page s <= maxInt.
Proof.
  unfold normalize_page. destruct (Atoi s) as [p|] eqn:E.
  - apply Atoi_in_range in E. destruct (Z.ltb_spec p 1); [cbv; split; discriminate | lia].
  - cbv. split; discriminate.
Qed.

Lemma normalize_limit_range (s : string) : 1 <= normalize_limit s <= 100.
Proof.
  unfold normalize_limit. destruct (Atoi s) as [l|]; [|lia].
  destruct (Z.ltb_spec l 1); cbn [orb]; [lia|].
  destruct (Z.gtb_spec l 100); lia.
Qed.

(** Decimal numerals are accepted: [Atoi] inverts [Itoa] on every
    [int]. *)

Lemma parse_digits_string_of_uint (d : Decimal.uint) (acc : Z) :
  parse_digits (NilEmpty.string_of_uint d) acc = Some (horner d acc).
Proof.
  revert acc. induction d; intros acc; cbn [NilEmpty.string_of_uint parse_digits horner];
    [reflexivity | ..]; apply IHd.
Qed.

Lemma horner_of_uint_acc (d : Decimal.uint) (acc : positive) :
  horner d (Zpos acc) = Zpos (Pos.of_uint_acc d acc).
Proof.
  revert acc. induction d; intros acc; cbn [horner Pos.of_uint_acc];
    [reflexivity | ..];
    match goal with
    | |- horner _ ?x = Zpos (Pos.of_uint_acc _ ?y) =>
        replace x with (Zpos y) by lia; apply IHd
    end.
Qed.

Lemma horner_of_uint (d : Decimal.uint) :
  horner d 0 = Z.of_N (Pos.of_uint d).
Proof.
  induction d; cbn [horner Pos.of_uint]; [reflexivity | exact IHd | ..];
    match goal with
    | |- horner _ ?x = _ => change x with (Zpos (Z.to_pos x)); apply horner_of_uint_acc
    end.
Qed.

Lemma horner_to_uint (p : positive) : horner (Pos.to_uint p) 0 = Zpos p.
Proof. now rewrite horner_of_uint, Unsigned.of_to. Qed.

Lemma string_of_to_uint (p : positive) :
  exists c rest,
    NilZero.string_of_uint (Pos.to_uint p) = String c rest
    /\ NilEmpty.string_of_uint (Pos.to_uint p) = String c rest
    /\ Ascii.eqb c "-" = false /\ Ascii.eqb c "+" = false.
Proof.
  pose proof (Unsigned.of_to p) as Hp.
  destruct (Pos.to_uint p) eqn:E; [discriminate | ..];
    eexists _, _; cbn; repeat split.
Qed.

Lemma Atoi_Itoa (n : Z) : minInt <= n <= maxInt -> Atoi (Itoa n) = Some n.
Proof.
  intros Hn. assert (Hr : in_range n = true).
  { unfold in_range. apply andb_true_intro. split; apply Z.leb_le; lia. }
  destruct n as [|p|p]; [reflexivity | |].
  - unfold Itoa. cbn [Z.to_int NilZero.string_of_int].
    destruct (string_of_to_uint p) as (c & rest & E & E' & Hm & Hp).
    rewrite E. unfold Atoi. rewrite Hm, Hp. cbn [orb].
    rewrite <- E', parse_digits_string_of_uint, horner_to_uint. cbv zeta.
    now rewrite Hr.
  - unfold Itoa. cbn [Z.to_int NilZero.string_of_int].
    destruct (string_of_to_uint p) as (c & rest & E & E' & _ & _).
    rewrite E. unfold Atoi. change (Ascii.eqb "-" "-") with true. cbn [orb].
    rewrite <- E', parse_digits_string_of_uint, horner_to_uint. cbv zeta.
    change (- Zpos p) with (Zneg p). now rewrite Hr.
Qed.

Example Atoi_plain : Atoi "12" = Some 12.
Proof. reflexivity. Qed.

Example Atoi_signs : Atoi "-3" = Some (-3) /\ Atoi "+7" = Some 7.
Proof. split; reflexivity. Qed.

Example Atoi_syntax :
  Atoi "" = None /\ Atoi "-" = None /\ Atoi "abc" = None
  /\ Atoi "1_000" = None /\ Atoi " 5" = None /\ Atoi "0x10" = None.
Proof. repeat split; reflexivity. Qed.

Example Atoi_range :
  Atoi "9223372036854775807" = Some maxInt
  /\ Atoi "9223372036854775808" = None
  /\ Atoi "-9223372036854775808" = Some minInt
  /\ Atoi "-9223372036854775809" = None.
Proof. repeat split; reflexivity. Qed.

(** C3.  Raw strings that [Atoi] parses to a page of at least 1 and a
    limit between 1 and 100 are returned unchanged by the normaliser. *)
Theorem normalize_params_valid (pageStr limitStr : string) (page limit : Z) :
  Atoi pageStr = Some page -> Atoi limitStr = Some limit ->
  1 <= page -> 1 <= limit <= 100 ->
  normalize_params pageStr limitStr = (page, limit).
Proof.
  intros Hp Hl Hpage Hlimit. unfold normalize_params, normalize_page, normalize_limit.
  rewrite Hp, Hl.
  destruct (Z.ltb_spec page 1); [lia|].
  destruct (Z.ltb_spec limit 1); [lia|].
  destruct (Z.gtb_spec limit 100); [lia|]. reflexivity.
Qed.

Lemma normalize_params_valid_witness :
  normalize_params "7" "25" = (7, 25).
Proof.
  apply (normalize_params_valid "7" "25" 7 25); [reflexivity | reflexivity | lia | lia].
Defined.

(** Every page of at least 1 and every limit between 1 and 100, written
    in decimal, comes back unchanged. *)
Corollary normalize_params_Itoa (page limit : Z) :
  1 <= page <= maxInt -> 1 <= limit <= 100 ->
  normalize_params (Itoa page) (Itoa limit) = (page, limit).
Proof.
  intros Hp Hl. unfold normalize_params, normalize_page, normalize_limit.
  rewrite !Atoi_Itoa by (unfold minInt, maxInt, intSize in *; lia).
  destruct (Z.ltb_spec page 1); [lia|].
  destruct (Z.ltb_spec limit 1); [lia|].
  destruct (Z.gtb_spec limit 100); [lia|]. reflexivity.
Qed.

Lemma normalize_page_invalid (pageStr : string) :
  invalid_page pageStr -> normalize_page pageStr = 1.
Proof.
  unfold invalid_page, normalize_page. destruct (Atoi pageStr) as [p|]; [|reflexivity].
  intros Hp. destruct (Z.ltb_spec p 1); [reflexivity | lia].
Qed.

Lemma normalize_limit_invalid (limitStr : string) :
  invalid_limit limitStr -> normalize_limit limitStr = 10.
Proof.
  unfold invalid_limit, normalize_limit. destruct (Atoi limitStr) as [l|]; [|reflexivity].
  intros Hl. destruct (Z.ltb_spec l 1); [reflexivity|].
  destruct (Z.gtb_spec l 100); [reflexivity | lia].
Qed.

Lemma missing_parameter (r : Request) (key : string) :
  Query r !! key = None -> Atoi (Get (Query r) key) = None.
Proof. intros Hk. unfold Get. rewrite Hk. reflexivity. Qed.

(** C4.  The normaliser is a total function, so it raises no error, and
    an invalid input is replaced by its default: an invalid page (not a
    number, missing, or below 1) by 1, an invalid limit (not a number,
    missing, below 1 or above 100) by 10; when both are invalid the
    result is [(1, 10)]. *)
Theorem normalize_params_invalid (pageStr limitStr : string) :
  (invalid_page pageStr -> fst (normalize_params pageStr limitStr) = 1)
  /\ (invalid_limit limitStr -> snd (normalize_params pageStr limitStr) = 10)
  /\ (invalid_page pageStr -> invalid_limit limitStr ->
      normalize_params pageStr limitStr = (1, 10)).
Proof.
  unfold normalize_params. cbn [fst snd]. repeat split.
  - apply normalize_page_invalid.
  - apply normalize_limit_invalid.
  - intros Hp Hl. now rewrite normalize_page_invalid, normalize_limit_invalid.
Qed.

Lemma normalize_params_invalid_witness :
  normalize_params "abc" "101" = (1, 10)
  /\ normalize_params "-3" "" = (1, 10)
  /\ normalize_params "0" "0" = (1, 10).
Proof.
  split; [|split].
  - apply (proj2 (proj2 (normalize_params_invalid "abc" "101")));
      vm_compute; [exact I | right; reflexivity].
  - apply (proj2 (proj2 (normalize_params_invalid "-3" "")));
      vm_compute; [reflexivity | exact I].
  - apply (proj2 (proj2 (normalize_params_invalid "0" "0")));
      vm_compute; [reflexivity | left; reflexivity].
Defined.

Example limit_abc_defaults : normalize_limit "abc" = 10.
Proof. reflexivity. Qed.

Example page_minus_three_defaults : normalize_page "-3" = 1.
Proof. reflexivity. Qed.

Example page_too_large_defaults : normalize_page "9223372036854775808" = 1.
Proof. reflexivity. Qed.

(** The two parameters fall back independently. *)
Example page_invalid_limit_valid : normalize_params "abc" "20" = (1, 20).
Proof. reflexivity. Qed.

(** ** Offset *)

Lemma wrap_int_small (x : Z) : minInt <= x <= maxInt -> wrap_int x = x.
Proof.
  unfold minInt, maxInt, wrap_int, intSize. change (64 - 1) with 63.
  intros Hx. rewrite Z.mod_small; lia.
Qed.

Lemma offset_of_wrap (page limit : Z) :
  1 <= page <= maxInt ->
  offset_of page limit = wrap_int ((page - 1) * limit).
Proof.
  intros Hp. unfold offset_of, int_mul, int_sub.
  rewrite (wrap_int_small (page - 1)); [reflexivity|].
  unfold minInt, maxInt, intSize in *. lia.
Qed.

(** C5.  When the count query succeeds, the page-fetch query is issued
    once, with the normalised limit and with the offset
    [(page - 1) * limit] computed on 64-bit integers; the product is
    exact whenever it fits an [int]. *)
Theorem offset_passed_to_select (sh : list (string * string))
    (h : ProductHandler) (r : Request) (env : Env) (n page limit : Z) :
  normalize_params (Get (Query r) "page") (Get (Query r) "limit") = (page, limit) ->
  count_products (db h) = Ok n ->
  w_db (serve sh h r env)
  = [DbCount; DbSelect limit (wrap_int ((page - 1) * limit))]
  /\ ((page - 1) * limit <= maxInt ->
      wrap_int ((page - 1) * limit) = (page - 1) * limit).
Proof.
  intros Hnorm Hc. injection Hnorm as Hp Hl.
  fold (page_of r) in Hp. fold (limit_of r) in Hl.
  pose proof (normalize_page_range (Get (Query r) "page")) as Hpr.
  pose proof (normalize_limit_range (Get (Query r) "limit")) as Hlr.
  fold (page_of r) in Hpr. fold (limit_of r) in Hlr. rewrite Hp in Hpr. rewrite Hl in Hlr.
  assert (Hoff : offset_in r = wrap_int ((page - 1) * limit)).
  { unfold offset_in. rewrite Hp, Hl. now apply offset_of_wrap. }
  split.
  - destruct (select_products (db h) (limit_of r) (offset_in r)) as [rows|e] eqn:Hs.
    + rewrite (serve_ok sh h r env n rows Hc Hs). cbn [w_db]. now rewrite Hoff, Hl.
    + rewrite (serve_select_error sh h r env n e Hc Hs). cbn [w_db]. now rewrite Hoff, Hl.
  - intros Hfit. apply wrap_int_small. unfold minInt, maxInt, intSize in *. nia.
Qed.

Lemma offset_passed_to_select_witness :
  w_db (serve [] (NewProductHandler (snapshot_store (table 25))) (request "3" "10") quiet)
  = [DbCount; DbSelect 10 (wrap_int ((3 - 1) * 10))]
  /\ ((3 - 1) * 10 <= maxInt -> wrap_int ((3 - 1) * 10) = (3 - 1) * 10).
Proof.
  apply (offset_passed_to_select [] _ (request "3" "10") quiet 25 3 10);
    reflexivity.
Defined.

(** ** Store failures *)

(** C2.  When the count query or the page-fetch query fails with the
    description [e], the handler answers with status 500 and the body
    [Internal server error] (as [http.Error] writes it, followed by a
    newline) and nothing else: no envelope.  The span carries the
    attribute [error] with the description [e] and has been ended, and
    each query was issued at most once. *)
Theorem store_failure_response (sh : list (string * string))
    (h : ProductHandler) (r : Request) (env : Env) (e : string) :
  count_products (db h) = Err e
  \/ (exists n, count_products (db h) = Ok n
              /\ select_products (db h) (limit_of r) (offset_in r) = Err e) ->
  let w := serve sh h r env in
  sent_status (w_resp w) = Some StatusInternalServerError
  /\ body (w_resp w) = [Text ("Internal server error" +:+ newline)]
  /\ envelope (w_resp w) = None
  /\ (exists s, w_span w = Some s
              /\ In ("error", AttrString e) (span_attrs s)
              /\ span_ended s = 1%nat)
  /\ (w_db w = [DbCount]
      \/ w_db w = [DbCount; DbSelect (limit_of r) (offset_in r)]).
Proof.
  intros [Hc | (n & Hc & Hs)]; cbv zeta.
  - rewrite (serve_count_error sh h r env e Hc). cbn [w_resp w_span w_db].
    unfold sent_status. rewrite committed_error_response.
    rewrite body_error_response, envelope_error_response.
    repeat split; try reflexivity; [|now left].
    eexists. split; [reflexivity|]. split; [now left | reflexivity].
  - rewrite (serve_select_error sh h r env n e Hc Hs). cbn [w_resp w_span w_db].
    unfold sent_status. rewrite committed_error_response.
    rewrite body_error_response, envelope_error_response.
    repeat split; try reflexivity; [|now right].
    eexists. split; [reflexivity|]. split; [now left | reflexivity].
Qed.

Lemma store_failure_response_witness :
  (let w := serve [] (NewProductHandler (count_fails "connection refused"))
                  (request "2" "10") quiet in
   sent_status (w_resp w) = Some StatusInternalServerError
   /\ body (w_resp w) = [Text ("Internal server error" +:+ newline)]
   /\ envelope (w_resp w) = None
   /\ (exists s, w_span w = Some s
               /\ In ("error", AttrString "connection refused") (span_attrs s)
               /\ span_ended s = 1%nat)
   /\ (w_db w = [DbCount]
       \/ w_db w = [DbCount; DbSelect (limit_of (request "2" "10"))
                                      (offset_in (request "2" "10"))]))
  /\ (let w := serve [] (NewProductHandler (select_fails 25 "lock wait timeout"))
                     (request "2" "10") broken_pipe in
      sent_status (w_resp w) = Some StatusInternalServerError
      /\ body (w_resp w) = [Text ("Internal server error" +:+ newline)]
      /\ envelope (w_resp w) = None
      /\ (exists s, w_span w = Some s
                  /\ In ("error", AttrString "lock wait timeout") (span_attrs s)
                  /\ span_ended s = 1%nat)
      /\ (w_db w = [DbCount]
          \/ w_db w = [DbCount; DbSelect (limit_of (request "2" "10"))
                                         (offset_in (request "2" "10"))])).
Proof.
  split.
  - apply (store_failure_response [] (NewProductHandler (count_fails "connection refused"))
             (request "2" "10") quiet "connection refused").
    left. reflexivity.
  - apply (store_failure_response [] (NewProductHandler (select_fails 25 "lock wait timeout"))
             (request "2" "10") broken_pipe "lock wait timeout").
    right. exists 25. split; reflexivity.
Defined.

(** ** The span *)

(** A deferred [span.End] adds one end to whatever span the body
    leaves. *)
Lemma defer_span_End {A} (b : Action A) (w : World) (s : Span) :
  w_span (snd (b w)) = Some s ->
  w_span (snd (defer span_End b w))
  = Some {| span_name := span_name s; span_attrs := span_attrs s;
            span_ended := S (span_ended s) |}.
Proof.
  intros Hs. unfold defer. destruct (b w) as [a w']. cbn [snd] in *.
  unfold span_End. rewrite Hs. reflexivity.
Qed.

Example write_failure_is_only_logged :
  let w := serve [] (NewProductHandler (snapshot_store (table 5)))
                 (request "1" "10") broken_pipe in
  last (w_log w) = Some (LogEncodeError "broken pipe")
  /\ w_span w = Some (ended_span (success_attrs (request "1" "10") 5
                                    (map product [1; 2; 3; 4; 5]))).
Proof. split; reflexivity. Qed.

(** C7.  On every path, whether the queries succeed or fail and whether
    the body can be written or not, the span started by the call exists
    at the end and has been ended exactly once. *)
Theorem span_ended_once (sh : list (string * string))
    (h : ProductHandler) (r : Request) (env : Env) :
  exists s, w_span (serve sh h r env) = Some s
            /\ span_name s = "get_products"
            /\ span_ended s = 1%nat.
Proof.
  on_each_path sh h r env; cbn [w_span]; eexists; repeat split.
Qed.

(** ** Total pages *)

Lemma ceil_div_spec (n d : Z) :
  0 < d -> (ceil_div n d - 1) * d < n <= ceil_div n d * d.
Proof.
  intros Hd. unfold ceil_div.
  pose proof (Z.div_mod (n + d - 1) d) as Hdm.
  pose proof (Z.mod_pos_bound (n + d - 1) d Hd) as Hm. nia.
Qed.

Lemma envelope_serve (sh : list (string * string)) (h : ProductHandler)
    (r : Request) (env : Env) (resp : PaginatedResponse) :
  envelope (w_resp (serve sh h r env)) = Some resp ->
  exists n rows,
    count_products (db h) = Ok n
    /\ select_products (db h) (limit_of r) (offset_in r) = Ok rows
    /\ resp = response_of r n rows.
Proof.
  on_each_path sh h r env; cbn [w_resp].
  - rewrite envelope_error_response. discriminate.
  - rewrite envelope_error_response. discriminate.
  - rewrite envelope_envelope. intros [= <-]. now exists n, rows.
Qed.

(** C1 (as amended).  In every envelope the handler writes, the limit is
    between 1 and 100 and, when the count is at most [2 ^ 53], the
    total-pages field is the ceiling of count over limit. *)
Theorem total_pages_in_envelope (sh : list (string * string))
    (h : ProductHandler) (r : Request) (env : Env) (resp : PaginatedResponse) :
  envelope (w_resp (serve sh h r env)) = Some resp ->
  0 <= Count resp <= 2 ^ 53 ->
  1 <= Limit resp <= 100
  /\ TotalPages resp = ceil_div (Count resp) (Limit resp).
Proof.
  intros Henv Hcount.
  destruct (envelope_serve sh h r env resp Henv) as (n & rows & _ & _ & ->).
  cbn [response_of Count Limit TotalPages] in *.
  pose proof (normalize_limit_range (Get (Query r) "limit")) as Hl.
  fold (limit_of r) in Hl. split; [exact Hl|].
  now apply totalPages_of_is_ceiling.
Qed.

Lemma total_pages_in_envelope_witness :
  1 <= Limit (response_of (request "1" "10") 25 []) <= 100
  /\ TotalPages (response_of (request "1" "10") 25 [])
     = ceil_div (Count (response_of (request "1" "10") 25 []))
                (Limit (response_of (request "1" "10") 25 [])).
Proof.
  apply (total_pages_in_envelope [] (NewProductHandler (reports 25))
           (request "1" "10") quiet).
  - reflexivity.
  - cbn. lia.
Defined.

Example total_pages_25_10 : totalPages_of 25 10 = 3.
Proof. reflexivity. Qed.

Example total_pages_0_10 : totalPages_of 0 10 = 0.
Proof. reflexivity. Qed.

Example total_pages_5_10 : totalPages_of 5 10 = 1.
Proof. reflexivity. Qed.

(** C1 (as stated) fails: a count of [2 ^ 53 + 1] is not a binary64
    number; with limit 1 the handler reports [2 ^ 53] pages. *)
Lemma total_pages_counterexample :
  ~ (forall sh h r env resp,
        envelope (w_resp (serve sh h r env)) = Some resp ->
        0 <= Count resp ->
        TotalPages resp = ceil_div (Count resp) (Limit resp)).
Proof.
  intros Hall.
  specialize (Hall [] (NewProductHandler (reports (2 ^ 53 + 1)))
                (request "1" "1") quiet
                (response_of (request "1" "1") (2 ^ 53 + 1) [])
                eq_refl).
  vm_compute in Hall. specialize (Hall ltac:(discriminate)). discriminate.
Qed.

(** ** Page size on a static snapshot *)

Lemma len_append_fresh (rows : list Product) :
  len (append (make_slice []) rows) = Z.of_nat (length rows).
Proof. destruct rows; reflexivity. Qed.

Lemma append_fresh_nil : append (make_slice []) ([] : list Product) = make_slice [].
Proof. reflexivity. Qed.

Lemma length_order_by_id (rows : list Product) :
  length (order_by_id rows) = length rows.
Proof. unfold order_by_id. now rewrite merge_sort_Permutation. Qed.

Lemma length_limit_offset (limit offset : Z) (rows : list Product) :
  0 <= limit -> 0 <= offset ->
  Z.of_nat (length (limit_offset limit offset rows))
  = Z.min limit (Z.max 0 (Z.of_nat (length rows) - offset)).
Proof.
  intros Hl Ho. unfold limit_offset. rewrite length_take, length_drop. lia.
Qed.

Lemma limit_offset_beyond (limit offset : Z) (rows : list Product) :
  0 <= offset -> Z.of_nat (length rows) <= offset ->
  limit_offset limit offset rows = [].
Proof.
  intros Ho Hge. unfold limit_offset. rewrite drop_ge by lia. apply take_nil.
Qed.

Lemma snapshot_select (rows : list Product) (limit offset : Z) :
  0 <= limit ->
  select_products (snapshot_store rows) limit offset
  = if offset <? 0 then Err "Incorrect arguments to mysqld_stmt_execute"
    else Ok (limit_offset limit offset (order_by_id rows)).
Proof.
  intros Hl. cbn [snapshot_store select_products].
  destruct (Z.ltb_spec limit 0); [lia | reflexivity].
Qed.

(** C6.  Against a static snapshot of the table, every envelope the
    handler writes holds at most [limit] products, exactly
    [min limit (max 0 (totalCount - offset))] of them; and when the
    offset is at or beyond the count the call still succeeds, with
    status 200 and an envelope whose product list is empty. *)
Theorem page_size_on_snapshot (sh : list (string * string))
    (rows : list Product) (r : Request) (env : Env) :
  let w := serve sh (NewProductHandler (snapshot_store rows)) r env in
  let totalCount := Z.of_nat (length rows) in
  let limit := limit_of r in
  let offset := offset_in r in
  (forall resp,
      envelope (w_resp w) = Some resp ->
      Count resp = totalCount /\ Limit resp = limit
      /\ len (Products resp) <= limit
      /\ len (Products resp) = Z.min limit (Z.max 0 (totalCount - offset)))
  /\ (totalCount <= offset ->
      sent_status (w_resp w) = Some StatusOK
      /\ exists resp, body (w_resp w) = [Json resp]
                      /\ Products resp = make_slice []
                      /\ Count resp = totalCount).
Proof.
  cbv zeta.
  pose proof (normalize_limit_range (Get (Query r) "limit")) as Hl.
  fold (limit_of r) in Hl.
  set (h := NewProductHandler (snapshot_store rows)).
  assert (Hc : count_products (db h) = Ok (Z.of_nat (length rows))) by reflexivity.
  assert (Hsel := snapshot_select rows (limit_of r) (offset_in r) ltac:(lia)).
  change (snapshot_store rows) with (db h) in Hsel.
  split.
  - intros resp Henv.
    destruct (envelope_serve sh h r env resp Henv) as (n & fetched & Hc' & Hs & ->).
    rewrite Hc in Hc'. injection Hc' as <-.
    rewrite Hsel in Hs. destruct (Z.ltb_spec (offset_in r) 0) as [|Ho]; [discriminate|].
    injection Hs as <-.
    cbn [response_of Count Limit Products].
    rewrite len_append_fresh, length_limit_offset, length_order_by_id by lia.
    repeat split; lia.
  - intros Hbeyond.
    destruct (Z.ltb_spec (offset_in r) 0) as [|Ho]; [lia|].
    rewrite (serve_ok sh h r env _ _ Hc Hsel). cbn [w_resp].
    unfold sent_status. rewrite committed_envelope, body_envelope.
    split; [reflexivity|]. eexists. split; [reflexivity|].
    cbn [response_of Products Count].
    rewrite limit_offset_beyond by (rewrite ?length_order_by_id; lia).
    split; reflexivity.
Qed.

Lemma page_size_on_snapshot_witness :
  sent_status (w_resp (serve [] (NewProductHandler (snapshot_store (table 5)))
                             (request "2" "10") quiet)) = Some StatusOK
  /\ exists resp,
       body (w_resp (serve [] (NewProductHandler (snapshot_store (table 5)))
                           (request "2" "10") quiet)) = [Json resp]
       /\ Products resp = make_slice []
       /\ Count resp = Z.of_nat (length (table 5)).
Proof.
  apply (proj2 (page_size_on_snapshot [] (table 5) (request "2" "10") quiet)).
  vm_compute. discriminate.
Defined.

Example five_products_on_first_page :
  envelope (w_resp (serve [] (NewProductHandler (snapshot_store (table 5)))
                          (request "1" "10") quiet))
  = Some {| Products := make_slice (map product [1; 2; 3; 4; 5]);
            Page := 1; Limit := 10; TotalPages := 1; Count := 5 |}.
Proof. reflexivity. Qed.

(** A page number so large that [(page - 1) * limit] wraps to a negative
    offset is answered with the internal error. *)
Example wrapped_offset_is_refused :
  let w := serve [] (NewProductHandler (snapshot_store (table 5)))
                 (request "9223372036854775807" "100") quiet in
  w_db w = [DbCount; DbSelect 100 (-200)]
  /\ sent_status (w_resp w) = Some StatusInternalServerError.
Proof. split; reflexivity. Qed.

Example empty_table_is_a_success :
  let w := serve [] (NewProductHandler (snapshot_store [])) (request "1" "10") quiet in
  sent_status (w_resp w) = Some StatusOK
  /\ envelope (w_resp w)
     = Some {| Products := make_slice []; Page := 1; Limit := 10;
               TotalPages := 0; Count := 0 |}.
Proof. split; reflexivity. Qed.

(** ** Headers *)

Lemma plain_text_content_type (hdr : gmap string string) :
  plain_text_headers hdr !! "Content-Type" = Some "text/plain; charset=utf-8".
Proof.
  unfold plain_text_headers.
  rewrite lookup_insert_ne by discriminate. apply lookup_insert_eq.
Qed.

Lemma plain_text_other (hdr : gmap string string) (k : string) :
  k <> "Content-Type" -> k <> "X-Content-Type-Options" -> k <> "Content-Length" ->
  plain_text_headers hdr !! k = hdr !! k.
Proof.
  intros H1 H2 H3. unfold plain_text_headers.
  rewrite !lookup_insert_ne by congruence. now apply lookup_delete_ne.
Qed.

Lemma set_all_snoc (hdr : gmap string string) (kvs : list (string * string))
    (k v : string) :
  set_all hdr (kvs ++ [(k, v)]) = <[k := v]> (set_all hdr kvs).
Proof. unfold set_all. now rewrite foldl_app. Qed.

Lemma json_content_type (sh : list (string * string)) :
  "Content-Type" ∉ map fst sh ->
  set_all ∅ (json_headers sh) !! "Content-Type" = Some "application/json".
Proof.
  unfold json_headers. cbn [set_all foldl fst snd].
  change (foldl _ ?m sh) with (set_all m sh).
  induction sh as [|[k v] sh IH] using rev_ind; intros Hk.
  - apply lookup_insert_eq.
  - rewrite set_all_snoc. rewrite map_app, not_elem_of_app in Hk.
    destruct Hk as [Hsh Hkv]. cbn in Hkv. rewrite not_elem_of_cons in Hkv.
    rewrite lookup_insert_ne by (intros ->; tauto). now apply IH.
Qed.

(** C8 (as amended).  On every path [setJSONHeaders] runs first and
    writes nothing, so the JSON content type and the standard headers are
    set before the status line or any of the body is written.  The
    envelope is sent with status 200 and exactly those headers.  An
    error response is sent with status 500 and those headers as changed
    by [http.Error]: the content type is plain text,
    [X-Content-Type-Options] is added and [Content-Length] removed. *)
Theorem headers_set_before_write (sh : list (string * string))
    (h : ProductHandler) (r : Request) (env : Env) :
  let ops := w_resp (serve sh h r env) in
  (exists rest, ops = setJSONHeaders_ops sh ++ rest
                /\ forallb (fun op => negb (is_write op)) (setJSONHeaders_ops sh) = true)
  /\ (forall resp, envelope ops = Some resp ->
        committed ∅ ops = Some (StatusOK, set_all ∅ (json_headers sh)))
  /\ (envelope ops = None ->
        committed ∅ ops
        = Some (StatusInternalServerError,
                plain_text_headers (set_all ∅ (json_headers sh)))).
Proof.
  cbv zeta. pose proof (no_write_in_setJSONHeaders sh) as Hnw.
  on_each_path sh h r env; cbn [w_resp].
  - split; [eexists; split; [reflexivity | exact Hnw]|].
    rewrite envelope_error_response, committed_error_response.
    split; [discriminate | reflexivity].
  - split; [eexists; split; [reflexivity | exact Hnw]|].
    rewrite envelope_error_response, committed_error_response.
    split; [discriminate | reflexivity].
  - split; [eexists; split; [reflexivity | exact Hnw]|].
    rewrite envelope_envelope, committed_envelope.
    split; [reflexivity | discriminate].
Qed.

(** C8 (as stated) fails on the error paths: the body of an error
    response is written under the plain-text content type that
    [http.Error] sets, not under the JSON one. *)
Lemma json_headers_counterexample :
  ~ (forall sh h r env hdr,
        sent_headers (w_resp (serve sh h r env)) = Some hdr ->
        body (w_resp (serve sh h r env)) <> [] ->
        hdr !! "Content-Type" = Some "application/json").
Proof.
  intros Hall.
  specialize (Hall [] (NewProductHandler (count_fails "connection refused"))
                (request "1" "10") quiet
                (plain_text_headers (set_all ∅ (json_headers [])))).
  rewrite (serve_count_error [] (NewProductHandler (count_fails "connection refused"))
             (request "1" "10") quiet "connection refused" eq_refl) in Hall.
  cbn [w_resp] in Hall. unfold sent_headers in Hall.
  rewrite committed_error_response, body_error_response in Hall.
  specialize (Hall eq_refl ltac:(discriminate)).
  rewrite plain_text_content_type in Hall. discriminate.
Qed.

(** ** Repeating a request *)

(** C9.  Two calls with the same raw [page] and [limit] against the same
    store perform the same operations on the response writer, whatever
    the remote address, the other query parameters, the clock and the
    state of the connection: the envelopes, the status and the headers
    are identical, and so are the queries issued. *)
Theorem same_request_same_envelope (sh : list (string * string))
    (h : ProductHandler) (r1 r2 : Request) (env1 env2 : Env) :
  Get (Query r1) "page" = Get (Query r2) "page" ->
  Get (Query r1) "limit" = Get (Query r2) "limit" ->
  envelope (w_resp (serve sh h r1 env1)) = envelope (w_resp (serve sh h r2 env2))
  /\ w_resp (serve sh h r1 env1) = w_resp (serve sh h r2 env2)
  /\ w_db (serve sh h r1 env1) = w_db (serve sh h r2 env2).
Proof.
  intros Hp Hl.
  assert (Hpage : page_of r1 = page_of r2) by (unfold page_of; now rewrite Hp).
  assert (Hlimit : limit_of r1 = limit_of r2) by (unfold limit_of; now rewrite Hl).
  assert (Hoff : offset_in r1 = offset_in r2) by (unfold offset_in; now rewrite Hpage, Hlimit).
  assert (Hresp : forall n rows, response_of r1 n rows = response_of r2 n rows)
    by (intros; unfold response_of; now rewrite Hpage, Hlimit).
  enough (Heq : w_resp (serve sh h r1 env1) = w_resp (serve sh h r2 env2)
                /\ w_db (serve sh h r1 env1) = w_db (serve sh h r2 env2))
    by (destruct Heq as [-> ->]; auto).
  destruct (path_cases h r1) as [e Hc | n e Hc Hs | n rows Hc Hs].
  - now rewrite (serve_count_error sh h r1 env1 e Hc), (serve_count_error sh h r2 env2 e Hc).
  - rewrite (serve_select_error sh h r1 env1 n e Hc Hs).
    rewrite Hlimit, Hoff in Hs.
    rewrite (serve_select_error sh h r2 env2 n e Hc Hs). cbn [w_resp w_db].
    now rewrite Hlimit, Hoff.
  - rewrite (serve_ok sh h r1 env1 n rows Hc Hs).
    rewrite Hlimit, Hoff in Hs.
    rewrite (serve_ok sh h r2 env2 n rows Hc Hs). cbn [w_resp w_db].
    now rewrite Hlimit, Hoff, Hresp.
Qed.

Lemma same_request_same_envelope_witness :
  let h := NewProductHandler (snapshot_store (table 25)) in
  envelope (w_resp (serve [] h (request "2" "10") quiet))
  = envelope (w_resp (serve [] h (other_request "2" "10") broken_pipe))
  /\ w_resp (serve [] h (request "2" "10") quiet)
     = w_resp (serve [] h (other_request "2" "10") broken_pipe)
  /\ w_db (serve [] h (request "2" "10") quiet)
     = w_db (serve [] h (other_request "2" "10") broken_pipe).
Proof.
  apply (same_request_same_envelope [] (NewProductHandler (snapshot_store (table 25)))
           (request "2" "10") (other_request "2" "10") quiet broken_pipe);
    reflexivity.
Defined.

Lemma headers_set_before_write_witness :
  committed ∅ (w_resp (serve [("Access-Control-Allow-Origin", "*")]
                             (NewProductHandler (snapshot_store (table 5)))
                             (request "1" "10") quiet))
  = Some (StatusOK,
          set_all ∅ (json_headers [("Access-Control-Allow-Origin", "*")])).
Proof.
  apply (proj1 (proj2 (headers_set_before_write
                         [("Access-Control-Allow-Origin", "*")]
                         (NewProductHandler (snapshot_store (table 5)))
                         (request "1" "10") quiet))
           (response_of (request "1" "10") 5
              (limit_offset 10 0 (order_by_id (table 5))))).
  reflexivity.
Defined.

(** ** The empty page *)

(** C10.  When both queries succeed and the page-fetch query returns no
    row, the product slice the handler made before the query is still
    the empty slice, not nil, and the body written is the envelope with
    [products] an empty array; a nil slice would have been encoded as
    [null]. *)
Theorem empty_page_is_empty_array (sh : list (string * string))
    (h : ProductHandler) (r : Request) (env : Env) (n : Z)
    (encode_product : Product -> string) :
  count_products (db h) = Ok n ->
  select_products (db h) (limit_of r) (offset_in r) = Ok [] ->
  let w := serve sh h r env in
  (exists resp, body (w_resp w) = [Json resp]
                /\ Products resp = make_slice []
                /\ Products resp <> nil_slice)
  /\ render_body encode_product (w_resp w)
     = ("{" +:+ json_key "products" +:+ "[]" +:+ ","
            +:+ json_key "page" +:+ Itoa (page_of r) +:+ ","
            +:+ json_key "limit" +:+ Itoa (limit_of r) +:+ ","
            +:+ json_key "total_pages" +:+ Itoa (totalPages_of n (limit_of r)) +:+ ","
            +:+ json_key "count" +:+ Itoa n +:+ "}") +:+ newline
  /\ json_products encode_product (append nil_slice []) = "null".
Proof.
  intros Hc Hs. cbv zeta. rewrite (serve_ok sh h r env n [] Hc Hs). cbn [w_resp].
  unfold render_body. rewrite body_envelope. split; [|split].
  - eexists. split; [reflexivity|]. split; [reflexivity | discriminate].
  - reflexivity.
  - reflexivity.
Qed.

Lemma empty_page_is_empty_array_witness :
  let w := serve [] (NewProductHandler (reports 0)) (request "1" "10") quiet in
  (exists resp, body (w_resp w) = [Json resp]
                /\ Products resp = make_slice []
                /\ Products resp <> nil_slice)
  /\ render_body (fun p => Itoa (id p)) (w_resp w)
     = ("{" +:+ json_key "products" +:+ "[]" +:+ ","
            +:+ json_key "page" +:+ Itoa (page_of (request "1" "10")) +:+ ","
            +:+ json_key "limit" +:+ Itoa (limit_of (request "1" "10")) +:+ ","
            +:+ json_key "total_pages"
            +:+ Itoa (totalPages_of 0 (limit_of (request "1" "10"))) +:+ ","
            +:+ json_key "count" +:+ Itoa 0 +:+ "}") +:+ newline
  /\ json_products (fun p => Itoa (id p)) (append nil_slice []) = "null".
Proof.
  apply (empty_page_is_empty_array [] (NewProductHandler (reports 0))
           (request "1" "10") quiet 0 (fun p => Itoa (id p)));
    reflexivity.
Defined.

Example empty_table_body :
  render_body (fun p => Itoa (id p))
    (w_resp (serve [] (NewProductHandler (snapshot_store [])) (request "1" "10") quiet))
  = "{" +:+ json_key "products" +:+ "[],"
        +:+ json_key "page" +:+ "1,"
        +:+ json_key "limit" +:+ "10,"
        +:+ json_key "total_pages" +:+ "0,"
        +:+ json_key "count" +:+ "0}" +:+ newline.
Proof. reflexivity. Qed.

(* ================================================================== *)
(** * Further properties of the handler *)
(* ================================================================== *)

(** ** What reaches the store *)

(** X1.  Whatever the raw parameters, a page-fetch query the handler
    issues asks for at least 1 and at most 100 rows, and the page of an
    envelope is a positive [int]. *)
Theorem select_limit_bounded (sh : list (string * string))
    (h : ProductHandler) (r : Request) (env : Env) :
  (forall limit offset,
      In (DbSelect limit offset) (w_db (serve sh h r env)) -> 1 <= limit <= 100)
  /\ (forall resp,
        envelope (w_resp (serve sh h r env)) = Some resp ->
        1 <= Page resp <= maxInt).
Proof.
  pose proof (normalize_limit_range (Get (Query r) "limit")) as Hl.
  pose proof (normalize_page_range (Get (Query r) "page")) as Hp.
  fold (limit_of r) in Hl. fold (page_of r) in Hp.
  on_each_path sh h r env; cbn [w_db w_resp]; split.
  - intros limit offset [Hin | []]. discriminate.
  - rewrite envelope_error_response. discriminate.
  - intros limit offset [Hin | [Hin | []]]; [discriminate|]. now injection Hin as <- _.
  - rewrite envelope_error_response. discriminate.
  - intros limit offset [Hin | [Hin | []]]; [discriminate|]. now injection Hin as <- _.
  - rewrite envelope_envelope. intros resp [= <-]. exact Hp.
Qed.

Lemma select_limit_bounded_witness : 1 <= 10 <= 100.
Proof.
  apply (proj1 (select_limit_bounded [] (NewProductHandler (snapshot_store (table 5)))
                  (request "1" "1000") quiet) 10 0).
  right. left. reflexivity.
Defined.

(** X2.  The count query is always issued, once and first; the
    page-fetch query is issued, once, exactly when the count query
    succeeded. *)
Theorem select_only_after_count (sh : list (string * string))
    (h : ProductHandler) (r : Request) (env : Env) :
  w_db (serve sh h r env)
  = match count_products (db h) with
    | Err _ => [DbCount]
    | Ok _ => [DbCount; DbSelect (limit_of r) (offset_in r)]
    end.
Proof. on_each_path sh h r env; cbn [w_db]; now rewrite Hc. Qed.

(** ** Defaults and fixed points of the normaliser *)

Lemma invalid_when_missing (r : Request) :
  Query r !! "page" = None -> invalid_page (Get (Query r) "page").
Proof.
  intros Hk. unfold invalid_page. now rewrite (missing_parameter r "page" Hk).
Qed.

Lemma offset_of_first_page (limit : Z) : 1 <= limit <= 100 -> offset_of 1 limit = 0.
Proof.
  intros Hl. rewrite offset_of_wrap by (unfold maxInt, intSize; lia).
  reflexivity.
Qed.

(** X3.  A request whose page is missing, not a number or below 1 is
    served from the first row: when the count query succeeds the
    page-fetch query is issued with offset 0 and the normalised limit,
    and the envelope written says page 1. *)
Theorem invalid_page_starts_at_first_row (sh : list (string * string))
    (h : ProductHandler) (r : Request) (env : Env) (n : Z) :
  invalid_page (Get (Query r) "page") ->
  count_products (db h) = Ok n ->
  w_db (serve sh h r env) = [DbCount; DbSelect (limit_of r) 0]
  /\ (forall resp, envelope (w_resp (serve sh h r env)) = Some resp ->
                   Page resp = 1).
Proof.
  intros Hinv Hc.
  assert (Hp : page_of r = 1) by (now apply normalize_page_invalid).
  assert (Ho : offset_in r = 0).
  { unfold offset_in. rewrite Hp. apply offset_of_first_page.
    apply normalize_limit_range. }
  destruct (select_products (db h) (limit_of r) (offset_in r)) as [rows|e] eqn:Hs.
  - rewrite (serve_ok sh h r env n rows Hc Hs). cbn [w_db w_resp].
    rewrite envelope_envelope, Ho. split; [reflexivity|].
    intros resp [= <-]. exact Hp.
  - rewrite (serve_select_error sh h r env n e Hc Hs). cbn [w_db w_resp].
    rewrite envelope_error_response, Ho. split; [reflexivity | discriminate].
Qed.

Lemma invalid_page_starts_at_first_row_witness :
  w_db (serve [] (NewProductHandler (snapshot_store (table 25)))
              (limit_only "20") quiet)
  = [DbCount; DbSelect (limit_of (limit_only "20")) 0]
  /\ (forall resp,
        envelope (w_resp (serve [] (NewProductHandler (snapshot_store (table 25)))
                                (limit_only "20") quiet)) = Some resp ->
        Page resp = 1).
Proof.
  apply (invalid_page_starts_at_first_row [] (NewProductHandler (snapshot_store (table 25)))
           (limit_only "20") quiet 25).
  - vm_compute. exact I.
  - reflexivity.
Defined.

Example limit_only_asks_for_twenty : limit_of (limit_only "20") = 20.
Proof. reflexivity. Qed.

(** X4.  The normaliser is idempotent on what it prints: the page and
    limit it returns, written in decimal and normalised again, come back
    unchanged, whatever the raw strings were. *)
Theorem normalize_params_idempotent (pageStr limitStr : string) :
  normalize_params (Itoa (fst (normalize_params pageStr limitStr)))
                   (Itoa (snd (normalize_params pageStr limitStr)))
  = normalize_params pageStr limitStr.
Proof.
  unfold normalize_params. cbn [fst snd].
  pose proof (normalize_page_range pageStr) as Hp.
  pose proof (normalize_limit_range limitStr) as Hl.
  set (p := normalize_page pageStr) in *. set (l := normalize_limit limitStr) in *.
  unfold normalize_page, normalize_limit.
  rewrite !Atoi_Itoa by (unfold minInt, maxInt, intSize in *; lia).
  destruct (Z.ltb_spec p 1); [lia|].
  destruct (Z.ltb_spec l 1); [lia|].
  destruct (Z.gtb_spec l 100); [lia|]. reflexivity.
Qed.

(** ** The offset *)

Lemma offset_of_no_wrap (page limit : Z) :
  1 <= page <= maxInt -> 0 <= limit -> (page - 1) * limit <= maxInt ->
  offset_of page limit = (page - 1) * limit.
Proof.
  intros Hp Hl Hfit. rewrite offset_of_wrap by exact Hp.
  apply wrap_int_small. unfold minInt, maxInt, intSize in *. nia.
Qed.

(** X5.  For every page up to 92233720368547759 and every limit between
    1 and 100 the offset is the exact product [(page - 1) * limit]: it
    does not wrap and is not negative. *)
Theorem offset_exact_on_safe_pages (page limit : Z) :
  1 <= page <= safe_page -> 1 <= limit <= 100 ->
  offset_of page limit = (page - 1) * limit
  /\ 0 <= offset_of page limit.
Proof.
  intros Hp Hl. unfold safe_page in Hp.
  rewrite offset_of_no_wrap by (unfold maxInt, intSize; nia).
  split; [reflexivity | nia].
Qed.

Lemma offset_exact_on_safe_pages_witness :
  offset_of safe_page 100 = (safe_page - 1) * 100
  /\ 0 <= offset_of safe_page 100.
Proof.
  apply (offset_exact_on_safe_pages safe_page 100); unfold safe_page; lia.
Defined.

(** The bound is the best one for limit 100: the next page wraps. *)
Example offset_wraps_after_safe_page : offset_of (safe_page + 1) 100 < 0.
Proof. reflexivity. Qed.

(** ** One answer per call *)

(** X6.  On every path the handler writes to the body exactly once:
    either the envelope, with status 200, or the error text, with
    status 500; never both, and never an error text after an envelope
    even when writing the envelope fails. *)
Theorem one_body_write (sh : list (string * string))
    (h : ProductHandler) (r : Request) (env : Env) :
  let ops := w_resp (serve sh h r env) in
  (exists resp, body ops = [Json resp]
                /\ sent_status ops = Some StatusOK)
  \/ (body ops = [Text ("Internal server error" +:+ newline)]
      /\ sent_status ops = Some StatusInternalServerError).
Proof.
  cbv zeta. unfold sent_status.
  on_each_path sh h r env; cbn [w_resp].
  - right. now rewrite body_error_response, committed_error_response.
  - right. now rewrite body_error_response, committed_error_response.
  - left. eexists. now rewrite body_envelope, committed_envelope.
Qed.

(** X7.  The response on a failure does not depend on which query failed
    nor on the description of the error: any two calls that write no
    envelope perform the same operations on the response writer, so the
    description reaches the log and the span only. *)
Theorem failures_look_alike (sh : list (string * string))
    (h1 h2 : ProductHandler) (r1 r2 : Request) (env1 env2 : Env) :
  envelope (w_resp (serve sh h1 r1 env1)) = None ->
  envelope (w_resp (serve sh h2 r2 env2)) = None ->
  w_resp (serve sh h1 r1 env1) = w_resp (serve sh h2 r2 env2).
Proof.
  assert (Hone : forall h r env,
             envelope (w_resp (serve sh h r env)) = None ->
             w_resp (serve sh h r env) = error_response sh).
  { intros h r env. on_each_path sh h r env; cbn [w_resp]; try reflexivity.
    rewrite envelope_envelope. discriminate. }
  intros H1 H2. now rewrite (Hone _ _ _ H1), (Hone _ _ _ H2).
Qed.

Lemma failures_look_alike_witness :
  w_resp (serve [] (NewProductHandler (count_fails "connection refused"))
                (request "1" "10") quiet)
  = w_resp (serve [] (NewProductHandler (select_fails 25 "lock wait timeout"))
                  (other_request "7" "50") broken_pipe).
Proof.
  apply (failures_look_alike [] (NewProductHandler (count_fails "connection refused"))
           (NewProductHandler (select_fails 25 "lock wait timeout"))
           (request "1" "10") (other_request "7" "50") quiet broken_pipe);
    reflexivity.
Defined.

(** ** The span and the log *)

(** X8.  Whenever an envelope is written, the span carries exactly the
    five attributes [page], [limit], [total_count], [total_pages] and
    [returned_count], with the values of the envelope's fields and the
    number of products in it, and no [error] attribute, also when writing
    the body fails. *)
Theorem span_agrees_with_envelope (sh : list (string * string))
    (h : ProductHandler) (r : Request) (env : Env) (resp : PaginatedResponse) :
  envelope (w_resp (serve sh h r env)) = Some resp ->
  w_span (serve sh h r env) = Some (ended_span (attrs_of resp)).
Proof.
  on_each_path sh h r env; cbn [w_resp w_span].
  - rewrite envelope_error_response. discriminate.
  - rewrite envelope_error_response. discriminate.
  - rewrite envelope_envelope. intros [= <-]. reflexivity.
Qed.

Lemma span_agrees_with_envelope_witness :
  w_span (serve [] (NewProductHandler (snapshot_store (table 25)))
                (request "3" "10") broken_pipe)
  = Some (ended_span
            (attrs_of (response_of (request "3" "10") 25
                         (limit_offset 10 20 (order_by_id (table 25)))))).
Proof.
  apply (span_agrees_with_envelope [] (NewProductHandler (snapshot_store (table 25)))
           (request "3" "10") broken_pipe).
  reflexivity.
Defined.

(** X9.  The completion line is the last thing logged and is logged
    only after a full success: if the log holds a completion line, then
    writing the body did not fail, an envelope was written, the duration
    logged is the time between the two readings of the clock and the
    number logged is the number of products in the envelope. *)
Theorem completion_logged_after_success (sh : list (string * string))
    (h : ProductHandler) (r : Request) (env : Env) (duration k : Z) :
  In (LogCompleted duration k) (w_log (serve sh h r env)) ->
  write_error env = None
  /\ duration = clock_end env - clock_start env
  /\ (exists resp, envelope (w_resp (serve sh h r env)) = Some resp
                   /\ k = len (Products resp))
  /\ last (w_log (serve sh h r env)) = Some (LogCompleted duration k).
Proof.
  on_each_path sh h r env; cbn [w_log w_resp]; unfold log_prefix.
  - intros Hin. cbn in Hin.
    repeat (destruct Hin as [Hin | Hin]; [discriminate|]). destruct Hin.
  - intros Hin. cbn in Hin.
    repeat (destruct Hin as [Hin | Hin]; [discriminate|]). destruct Hin.
  - intros Hin. cbn in Hin.
    repeat (destruct Hin as [Hin | Hin]; [discriminate|]).
    destruct Hin as [Hin | []]. unfold last_line in *.
    destruct (write_error env); [discriminate|].
    injection Hin as <- <-. rewrite envelope_envelope.
    split; [reflexivity|]. split; [reflexivity|].
    split; [eexists; split; reflexivity | reflexivity].
Qed.

Lemma completion_logged_after_success_witness :
  write_error quiet = None
  /\ 1 = clock_end quiet - clock_start quiet
  /\ (exists resp,
        envelope (w_resp (serve [] (NewProductHandler (snapshot_store (table 5)))
                                (request "1" "10") quiet)) = Some resp
        /\ 5 = len (Products resp))
  /\ last (w_log (serve [] (NewProductHandler (snapshot_store (table 5)))
                        (request "1" "10") quiet))
     = Some (LogCompleted 1 5).
Proof.
  apply (completion_logged_after_success [] (NewProductHandler (snapshot_store (table 5)))
           (request "1" "10") quiet 1 5).
  vm_compute. do 8 right. left. reflexivity.
Defined.

(** ** Headers of an error response *)

(** X10.  An error response is sent with [X-Content-Type-Options:
    nosniff] and without a [Content-Length] header, and keeps every
    other header that was set before the failure except the content
    type. *)
Theorem error_response_headers (sh : list (string * string))
    (h : ProductHandler) (r : Request) (env : Env) :
  envelope (w_resp (serve sh h r env)) = None ->
  exists hdr,
    sent_headers (w_resp (serve sh h r env)) = Some hdr
    /\ hdr !! "X-Content-Type-Options" = Some "nosniff"
    /\ hdr !! "Content-Length" = None
    /\ (forall k, k <> "Content-Type" -> k <> "X-Content-Type-Options" ->
                  k <> "Content-Length" ->
                  hdr !! k = set_all ∅ (json_headers sh) !! k).
Proof.
  intros Hnone.
  assert (Hops : w_resp (serve sh h r env) = error_response sh).
  { revert Hnone. on_each_path sh h r env; cbn [w_resp]; try reflexivity.
    rewrite envelope_envelope. discriminate. }
  rewrite Hops. unfold sent_headers. rewrite committed_error_response.
  exists (plain_text_headers (set_all ∅ (json_headers sh))).
  split; [reflexivity|]. split; [|split].
  - unfold plain_text_headers. apply lookup_insert_eq.
  - unfold plain_text_headers. rewrite !lookup_insert_ne by discriminate.
    apply lookup_delete_eq.
  - intros k H1 H2 H3. now apply plain_text_other.
Qed.

Lemma error_response_headers_witness :
  exists hdr,
    sent_headers (w_resp (serve [("Access-Control-Allow-Origin", "*")]
                                (NewProductHandler (count_fails "connection refused"))
                                (request "1" "10") quiet)) = Some hdr
    /\ hdr !! "X-Content-Type-Options" = Some "nosniff"
    /\ hdr !! "Content-Length" = None
    /\ (forall k, k <> "Content-Type" -> k <> "X-Content-Type-Options" ->
                  k <> "Content-Length" ->
                  hdr !! k
                  = set_all ∅ (json_headers [("Access-Control-Allow-Origin", "*")]) !! k).
Proof.
  apply (error_response_headers [("Access-Control-Allow-Origin", "*")]
           (NewProductHandler (count_fails "connection refused"))
           (request "1" "10") quiet).
  reflexivity.
Defined.

(** ** Total pages and the pages of a snapshot *)

Lemma totalPages_of_bracket (totalCount limit : Z) :
  0 <= totalCount <= 2 ^ 53 -> 1 <= limit <= 100 ->
  (totalPages_of totalCount limit - 1) * limit < totalCount
                                              <= totalPages_of totalCount limit * limit.
Proof.
  intros Hc Hl. rewrite totalPages_of_is_ceiling by assumption.
  apply (ceil_div_spec totalCount limit). lia.
Qed.

(** X11.  For a count of at most [2 ^ 53] the total-pages value brackets
    the count: the pages before the last hold fewer rows than the count
    and all the pages hold at least the count.  So it is 0 exactly for
    an empty table and never exceeds the count. *)
Theorem total_pages_brackets_count (totalCount limit : Z) :
  0 <= totalCount <= 2 ^ 53 -> 1 <= limit <= 100 ->
  (totalPages_of totalCount limit - 1) * limit < totalCount
                                              <= totalPages_of totalCount limit * limit
  /\ (totalPages_of totalCount limit = 0 <-> totalCount = 0)
  /\ 0 <= totalPages_of totalCount limit <= totalCount.
Proof.
  intros Hc Hl. pose proof (totalPages_of_bracket totalCount limit Hc Hl) as Hs.
  set (tp := totalPages_of totalCount limit) in *.
  split; [exact Hs|]. split; [split; nia | nia].
Qed.

Lemma total_pages_brackets_count_witness :
  (totalPages_of 25 10 - 1) * 10 < 25 <= totalPages_of 25 10 * 10
  /\ (totalPages_of 25 10 = 0 <-> 25 = 0)
  /\ 0 <= totalPages_of 25 10 <= 25.
Proof. apply (total_pages_brackets_count 25 10); lia. Defined.

(** *** Pages of a snapshot *)

Lemma Get_request_page (pageStr limitStr : string) :
  Get (Query (request pageStr limitStr)) "page" = pageStr.
Proof. unfold Get, request. cbn [Query]. now rewrite lookup_insert_eq. Qed.

Lemma Get_request_limit (pageStr limitStr : string) :
  Get (Query (request pageStr limitStr)) "limit" = limitStr.
Proof.
  unfold Get, request. cbn [Query].
  rewrite lookup_insert_ne by discriminate. now rewrite lookup_insert_eq.
Qed.

Lemma page_of_request (k l : Z) :
  1 <= k <= maxInt -> page_of (request (Itoa k) (Itoa l)) = k.
Proof.
  intros Hk. unfold page_of, normalize_page. rewrite Get_request_page.
  rewrite Atoi_Itoa by (unfold minInt, maxInt, intSize in *; lia).
  destruct (Z.ltb_spec k 1); [lia | reflexivity].
Qed.

Lemma limit_of_request (k l : Z) :
  1 <= l <= 100 -> limit_of (request (Itoa k) (Itoa l)) = l.
Proof.
  intros Hl. unfold limit_of, normalize_limit. rewrite Get_request_limit.
  rewrite Atoi_Itoa by (unfold minInt, maxInt, intSize in *; lia).
  destruct (Z.ltb_spec l 1); [lia|].
  destruct (Z.gtb_spec l 100); [lia | reflexivity].
Qed.

Lemma elements_append_fresh (rows : list Product) :
  elements (append (make_slice []) rows) = rows.
Proof. destruct rows; reflexivity. Qed.

Lemma snapshot_envelope (sh : list (string * string)) (rows : list Product)
    (r : Request) (env : Env) :
  0 <= offset_in r ->
  envelope (w_resp (serve sh (NewProductHandler (snapshot_store rows)) r env))
  = Some (response_of r (Z.of_nat (length rows))
            (limit_offset (limit_of r) (offset_in r) (order_by_id rows))).
Proof.
  intros Ho. set (h := NewProductHandler (snapshot_store rows)).
  pose proof (normalize_limit_range (Get (Query r) "limit")) as Hl.
  fold (limit_of r) in Hl.
  assert (Hs := snapshot_select rows (limit_of r) (offset_in r) ltac:(lia)).
  destruct (Z.ltb_spec (offset_in r) 0); [lia|].
  rewrite (serve_ok sh h r env (Z.of_nat (length rows)) _ eq_refl Hs).
  cbn [w_resp]. apply envelope_envelope.
Qed.

Lemma page_products_eq (sh : list (string * string)) (rows : list Product)
    (env : Env) (k l : Z) :
  1 <= k <= safe_page -> 1 <= l <= 100 ->
  page_products sh rows env (Itoa k) (Itoa l)
  = limit_offset l ((k - 1) * l) (order_by_id rows).
Proof.
  intros Hk Hl. unfold safe_page in Hk.
  assert (Hkm : 1 <= k <= maxInt) by (unfold maxInt, intSize; lia).
  assert (Ho : offset_in (request (Itoa k) (Itoa l)) = (k - 1) * l).
  { unfold offset_in. rewrite page_of_request, limit_of_request by assumption.
    apply offset_of_no_wrap; [assumption | lia |].
    unfold maxInt, intSize. nia. }
  unfold page_products. rewrite snapshot_envelope by (rewrite Ho; nia).
  cbn [response_of Products]. rewrite elements_append_fresh, Ho.
  now rewrite limit_of_request.
Qed.

Lemma concat_consecutive_chunks (xs : list Product) (l : Z) (m : nat) :
  0 <= l ->
  concat (map (fun k => limit_offset l ((k - 1) * l) xs)
              (map Z.of_nat (seq 1 m)))
  = take (m * Z.to_nat l) xs.
Proof.
  intros Hl. induction m as [|m IH]; [reflexivity|].
  rewrite seq_S, !map_app, concat_app, IH. cbn [map concat].
  rewrite app_nil_r. unfold limit_offset.
  replace (Z.to_nat ((Z.of_nat (1 + m) - 1) * l)) with (m * Z.to_nat l)%nat by nia.
  rewrite take_take_drop. f_equal. lia.
Qed.

(** X12.  Walking a snapshot of at most [2 ^ 53] rows page by page, from
    page 1 to the total number of pages the handler reports, with the
    same limit, yields every row exactly once, in the order of the
    identifiers. *)
Theorem pages_cover_table (sh : list (string * string)) (rows : list Product)
    (env : Env) (limit : Z) :
  1 <= limit <= 100 -> Z.of_nat (length rows) <= 2 ^ 53 ->
  concat (map (fun k => page_products sh rows env (Itoa k) (Itoa limit))
              (page_numbers (totalPages_of (Z.of_nat (length rows)) limit)))
  = order_by_id rows.
Proof.
  intros Hl Hn.
  pose proof (totalPages_of_bracket (Z.of_nat (length rows)) limit ltac:(lia) Hl) as Hb.
  set (tp := totalPages_of (Z.of_nat (length rows)) limit) in *.
  assert (Htp : 0 <= tp <= 2 ^ 53) by nia.
  unfold page_numbers.
  rewrite (map_ext_in _ (fun k => limit_offset limit ((k - 1) * limit) (order_by_id rows))).
  - rewrite concat_consecutive_chunks by lia.
    apply take_ge. rewrite length_order_by_id. nia.
  - intros k Hin. apply in_map_iff in Hin as (j & <- & Hj). apply in_seq in Hj.
    apply page_products_eq; [unfold safe_page; lia | exact Hl].
Qed.

Lemma pages_cover_table_witness :
  concat (map (fun k => page_products [] (table 25) quiet (Itoa k) (Itoa 10))
              (page_numbers (totalPages_of (Z.of_nat (length (table 25))) 10)))
  = order_by_id (table 25).
Proof.
  apply (pages_cover_table [] (table 25) quiet 10); [lia | vm_compute; discriminate].
Defined.

(** X13.  On a snapshot of at most [2 ^ 53] rows, the total number of
    pages is exactly the number of non-empty pages: every page before
    the last holds [limit] products, the last holds between 1 and
    [limit], and every later page (up to the largest page whose offset
    fits) holds none. *)
Theorem page_sizes_on_snapshot (sh : list (string * string)) (rows : list Product)
    (env : Env) (limit k : Z) :
  1 <= limit <= 100 -> Z.of_nat (length rows) <= 2 ^ 53 ->
  1 <= k <= safe_page ->
  let totalCount := Z.of_nat (length rows) in
  let totalPages := totalPages_of totalCount limit in
  let size := Z.of_nat (length (page_products sh rows env (Itoa k) (Itoa limit))) in
  (k < totalPages -> size = limit)
  /\ (k = totalPages -> size = totalCount - (totalPages - 1) * limit
                        /\ 1 <= size <= limit)
  /\ (totalPages < k -> size = 0).
Proof.
  intros Hl Hn Hk. cbv zeta.
  pose proof (totalPages_of_bracket (Z.of_nat (length rows)) limit ltac:(lia) Hl) as Hb.
  set (tp := totalPages_of (Z.of_nat (length rows)) limit) in *.
  rewrite page_products_eq by assumption.
  rewrite length_limit_offset, length_order_by_id by nia.
  repeat split; intros; subst; nia.
Qed.

Lemma page_sizes_on_snapshot_witness :
  let size := Z.of_nat (length (page_products [] (table 25) quiet (Itoa 3) (Itoa 10))) in
  (3 < totalPages_of (Z.of_nat (length (table 25))) 10 -> size = 10)
  /\ (3 = totalPages_of (Z.of_nat (length (table 25))) 10 ->
      size = Z.of_nat (length (table 25))
             - (totalPages_of (Z.of_nat (length (table 25))) 10 - 1) * 10
      /\ 1 <= size <= 10)
  /\ (totalPages_of (Z.of_nat (length (table 25))) 10 < 3 -> size = 0).
Proof.
  apply (page_sizes_on_snapshot [] (table 25) quiet 10 3);
    [lia | vm_compute; discriminate | unfold safe_page; lia].
Defined.

Lemma by_id_transitive : Transitive by_id.
Proof. intros p q s. unfold by_id. lia. Qed.

Lemma by_id_total : Total by_id.
Proof. intros p q. unfold by_id. lia. Qed.

Lemma StronglySorted_limit_offset (limit offset : Z) (xs : list Product) :
  StronglySorted by_id xs -> StronglySorted by_id (limit_offset limit offset xs).
Proof.
  intros Hs. unfold limit_offset.
  rewrite <- (take_drop (Z.to_nat offset) xs) in Hs.
  apply StronglySorted_app_1_r in Hs.
  rewrite <- (take_drop (Z.to_nat limit) (drop (Z.to_nat offset) xs)) in Hs.
  now apply StronglySorted_app_1_l in Hs.
Qed.

Lemma limit_offset_submseteq (limit offset : Z) (rows : list Product) :
  limit_offset limit offset (order_by_id rows) ⊆+ rows.
Proof.
  unfold limit_offset, order_by_id. rewrite <- (merge_sort_Permutation by_id rows) at 2.
  apply sublist_submseteq. etransitivity; [apply sublist_take | apply sublist_drop].
Qed.

(** X14.  Against a static snapshot, the products of every envelope are
    in ascending order of identifier and are rows of the table, each
    returned no more often than it occurs in the table. *)
Theorem page_is_sorted_part_of_table (sh : list (string * string))
    (rows : list Product) (r : Request) (env : Env) (resp : PaginatedResponse) :
  envelope (w_resp (serve sh (NewProductHandler (snapshot_store rows)) r env))
  = Some resp ->
  StronglySorted by_id (elements (Products resp))
  /\ elements (Products resp) ⊆+ rows.
Proof.
  intros Henv.
  destruct (envelope_serve sh _ r env resp Henv) as (n & fetched & _ & Hs & ->).
  pose proof (normalize_limit_range (Get (Query r) "limit")) as Hl.
  fold (limit_of r) in Hl.
  change (db (NewProductHandler (snapshot_store rows))) with (snapshot_store rows) in Hs.
  rewrite snapshot_select in Hs by lia.
  destruct (offset_in r <? 0); [discriminate|]. injection Hs as <-.
  cbn [response_of Products]. rewrite elements_append_fresh. split.
  - apply StronglySorted_limit_offset.
    exact (@StronglySorted_merge_sort _ by_id _ by_id_transitive by_id_total rows).
  - apply limit_offset_submseteq.
Qed.

Lemma page_is_sorted_part_of_table_witness :
  StronglySorted by_id
    (elements (Products (response_of (request "2" "10") 25
                           (limit_offset 10 10 (order_by_id (table 25))))))
  /\ elements (Products (response_of (request "2" "10") 25
                           (limit_offset 10 10 (order_by_id (table 25)))))
     ⊆+ table 25.
Proof.
  apply (page_is_sorted_part_of_table [] (table 25) (request "2" "10") quiet).
  reflexivity.
Defined.

(** ** Wrap-around of the offset *)

(** X15.  Beyond the safe pages the offset wraps around: two pages that
    differ by [d] receive the same offset, and so the same rows, as soon
    as [d * limit] is a multiple of [2 ^ 64]; with limit 100 this is so
    for [d = 2 ^ 62]. *)
Theorem offset_aliases (page d limit : Z) :
  1 <= page -> 0 <= d -> page + d <= maxInt ->
  (d * limit) mod 2 ^ 64 = 0 ->
  offset_of (page + d) limit = offset_of page limit.
Proof.
  intros Hp Hd Hmax Hmul.
  rewrite !offset_of_wrap by lia.
  unfold wrap_int, intSize. change (64 - 1) with 63. f_equal.
  apply Z.mod_divide in Hmul as [q Hq]; [|lia].
  replace ((page + d - 1) * limit + 2 ^ 63)
    with ((page - 1) * limit + 2 ^ 63 + q * 2 ^ 64) by lia.
  apply Z.mod_add. lia.
Qed.

Lemma offset_aliases_witness :
  offset_of (1 + 2 ^ 62) 100 = offset_of 1 100.
Proof.
  apply (offset_aliases 1 (2 ^ 62) 100); [lia | lia | unfold maxInt, intSize; lia | reflexivity].
Defined.

(** The page 4611686018427387905 of a table is its first page. *)
Example aliased_page_is_first_page :
  page_products [] (table 25) quiet "4611686018427387905" "100"
  = page_products [] (table 25) quiet "1" "100".
Proof. reflexivity. Qed.
